(** * REPORT_COMBINER.py: header reconciliation and row projection

    A shallow embedding of [src/REPORT_COMBINER.py] (classes [HeaderMapper],
    [FileData], [FileHandler]) and the properties of its specification.

    Modelling conventions.
    - A Python [str] is a [string] of 8-bit characters.
    - A [dict] whose iteration order can be observed (the per-slot count
      table, iterated by [sorted]) is an association list kept in insertion
      order, the order CPython guarantees since 3.7.  Dicts that are only
      looked up, or iterated through [sorted] on distinct keys, are [gmap]s.
    - Exceptions and the [logging] warnings and errors are carried by a small
      writer-and-error monad [M].  [logging.debug] calls are not recorded.
    - A file object is the list of lines it has not yielded yet. *)

From Stdlib Require Import Ascii String.
From stdpp Require Import gmap strings list sorting.

(** ** Python built-ins used by the program *)

Module Py.

(** [c.isspace()] for one byte: space, [\t], [\n], [\v], [\f], [\r]. *)
Definition is_whitespace (c : ascii) : bool :=
  let n := nat_of_ascii c in (n =? 32) || ((9 <=? n) && (n <=? 13)).

Definition newline : ascii := ascii_of_nat 10.
Definition carriage_return : ascii := ascii_of_nat 13.
Definition tab : ascii := ascii_of_nat 9.
Definition hash : ascii := ascii_of_nat 35.

Fixpoint all_chars (p : ascii → bool) (s : string) : bool :=
  match s with
  | EmptyString => true
  | String c s' => p c && all_chars p s'
  end.

(** [s.isspace()]: at least one character, and all of them whitespace. *)
Definition isspace (s : string) : bool :=
  match s with
  | EmptyString => false
  | String _ _ => all_chars is_whitespace s
  end.

(** [s.rstrip(chars)]: drop the longest suffix made of characters in [p]. *)
Fixpoint rstrip_chars (p : ascii → bool) (s : string) : string :=
  match s with
  | EmptyString => EmptyString
  | String c s' =>
      match rstrip_chars p s' with
      | EmptyString => if p c then EmptyString else String c EmptyString
      | r => String c r
      end
  end.

(** [s.rstrip()] *)
Definition rstrip (s : string) : string := rstrip_chars is_whitespace s.

(** [s.rstrip("\n").rstrip("\r")] strips one character class at a time. *)
Definition rstrip_char (c : ascii) (s : string) : string :=
  rstrip_chars (Ascii.eqb c) s.

(** [s.split(sep)] for a non-empty [sep]: [skip] counts the characters of a
    separator occurrence still to be passed over, [cur] is the field being
    read. *)
Fixpoint split_from (sep : string) (skip : nat) (cur : string) (s : string)
  : list string :=
  match s with
  | EmptyString => [cur]
  | String c s' =>
      match skip with
      | S k => split_from sep k cur s'
      | O =>
          if String.prefix sep s
          then cur :: split_from sep (String.length sep - 1) EmptyString s'
          else split_from sep 0 (cur +:+ String c EmptyString) s'
      end
  end.

(** [s[-3:]] *)
Fixpoint last3 (s : string) : string :=
  match s with
  | String _ s' => if 3 <=? String.length s' then last3 s' else s
  | EmptyString => EmptyString
  end.

(** Iterating a file object yields its text cut after every newline; a last
    line without a newline is yielded as it is. *)
Fixpoint file_lines (text : string) : list string :=
  match text with
  | EmptyString => []
  | String c rest =>
      if Ascii.eqb c newline then String c EmptyString :: file_lines rest
      else match file_lines rest with
           | [] => [String c EmptyString]
           | l :: ls => String c l :: ls
           end
  end.

(** [enumerate(l)] *)
Fixpoint enumerate_from {A} (n : nat) (l : list A) : list (nat * A) :=
  match l with
  | [] => []
  | x :: l' => (n, x) :: enumerate_from (S n) l'
  end.
Definition enumerate {A} (l : list A) : list (nat * A) := enumerate_from 0 l.

(** [sorted(l, key=key, reverse=True)]: a stable sort, so elements with equal
    keys keep the order they have in [l], also under [reverse=True]. *)
Fixpoint insert_desc {A} (key : A → nat) (x : A) (l : list A) : list A :=
  match l with
  | [] => [x]
  | y :: l' => if key x <? key y then y :: insert_desc key x l' else x :: l
  end.
Definition sorted_desc {A} (key : A → nat) (l : list A) : list A :=
  foldr (insert_desc key) [] l.

(** [zip] applied to the rows as separate arguments.  The result has as many
    entries as the shortest row has elements, entry [i] collecting element [i]
    of every row in order; [zip()] of no argument is empty. *)
Definition zip_star {A} (rows : list (list A)) : list (list A) :=
  match rows with
  | [] => []
  | r :: rs =>
      (λ i, omap (λ row : list A, row !! i) rows)
        <$> seq 0 (foldr (λ r' n, Nat.min (length r') n) (length r) rs)
  end.

(** [sep.join(row)] *)
Fixpoint join (sep : string) (row : list string) : string :=
  match row with
  | [] => EmptyString
  | [x] => x
  | x :: row' => x +:+ sep +:+ join sep row'
  end.

(** An insertion-ordered dict with string keys. *)
Abbreviation odict V := (list (string * V)).

Section odict.
Context {V : Type}.

Fixpoint od_get (k : string) (d : odict V) : option V :=
  match d with
  | [] => None
  | (k', v) :: d' => if decide (k' = k) then Some v else od_get k d'
  end.

Definition od_keys (d : odict V) : list string := fst <$> d.

(** [d[k] = v]: an existing key keeps its place, a new one goes last. *)
Fixpoint od_set (k : string) (v : V) (d : odict V) : odict V :=
  match d with
  | [] => [(k, v)]
  | (k', v') :: d' =>
      if decide (k' = k) then (k, v) :: d' else (k', v') :: od_set k v d'
  end.

End odict.

End Py.

(** ** Exceptions and diagnostics *)

Inductive exn := StopIteration | IndexError | KeyError | TypeError | ValueError.

(** The records sent to [logging.warning] and [logging.error]. *)
Inductive diag :=
| FileIsEmpty (name : string)
| SkippingFile (name : string)
| InconsistentColumns (file_name : string) (line_num ncols header_length : nat).

Inductive outcome (A : Type) :=
| Ok (a : A)
| Raise (e : exn).
Global Arguments Ok {A} a.
Global Arguments Raise {A} e.

(** A computation logs diagnostics and then returns or raises. *)
Definition M (A : Type) : Type := list diag * outcome A.

Definition ret {A} (a : A) : M A := ([], Ok a).
Definition raise {A} (e : exn) : M A := ([], Raise e).
Definition log (d : diag) : M unit := ([d], Ok tt).
Definition bind {A B} (m : M A) (f : A → M B) : M B :=
  match m with
  | (l, Ok a) => let '(l', r) := f a in (l ++ l', r)
  | (l, Raise e) => (l, Raise e)
  end.

(** stdpp's monad notations [x ← m; k] and [m ;; k] at [M]. *)
Global Instance M_ret : MRet M := @ret.
Global Instance M_bind : MBind M := λ A B f m, bind m f.

(** [s.split(sep)]: an empty separator is a [ValueError]. *)
Definition split (s sep : string) : M (list string) :=
  match sep with
  | EmptyString => raise ValueError
  | String _ _ => ret (Py.split_from sep 0 EmptyString s)
  end.

(** [s[0]] *)
Definition first_char (s : string) : M ascii :=
  match s with
  | EmptyString => raise IndexError
  | String c _ => ret c
  end.

(** ** class HeaderMapper *)

Module HeaderMapper.

Record t := mk {
  header_counts : gmap nat (Py.odict nat);
  header_values : gmap string (list nat);
  header_order_final : list string
}.

(** [__init__] *)
Definition init : t :=
  {| header_counts := ∅; header_values := ∅; header_order_final := [] |}.

(** [self.header_counts[column_num][column_id]], read where the entry exists *)
Definition count_at (hc : gmap nat (Py.odict nat)) (column_num : nat)
    (column_id : string) : nat :=
  default 0 (Py.od_get column_id (default [] (hc !! column_num))).

(** One iteration of the loop of [add_header_arr]. *)
Definition add_column (self : t) (col : nat * string) : t :=
  let '(column_num, column_id) := col in
  let hc := header_counts self in
  let hc :=
    match hc !! column_num with
    | None => <[column_num := []]> hc
    | Some _ => hc
    end in
  let slot := default [] (hc !! column_num) in
  let slot :=
    match Py.od_get column_id slot with
    | None => Py.od_set column_id 0 slot
    | Some _ => slot
    end in
  let slot :=
    Py.od_set column_id (default 0 (Py.od_get column_id slot) + 1) slot in
  let hc := <[column_num := slot]> hc in
  let hv := header_values self in
  let hv :=
    match hv !! column_id with
    | None => <[column_id := []]> hv
    | Some _ => hv
    end in
  let hv := <[column_id := default [] (hv !! column_id) ++ [column_num]]> hv in
  {| header_counts := hc; header_values := hv;
     header_order_final := header_order_final self |}.

Definition add_header_arr (self : t) (header_arr : list string) : t :=
  foldl add_column self (Py.enumerate header_arr).

(** [sorted(self.header_counts)] *)
Definition sorted_slots (hc : gmap nat (Py.odict nat)) : list nat :=
  merge_sort (≤) (fst <$> map_to_list hc).

(** [sorted(self.header_counts[column_num], key=..., reverse=True)] *)
Definition sorted_ids (hc : gmap nat (Py.odict nat)) (column_num : nat)
  : list string :=
  Py.sorted_desc (count_at hc column_num)
    (Py.od_keys (default [] (hc !! column_num))).

(** The body of the inner loop of [set_final_header]. *)
Definition place (final : list string) (column_id : string) : list string :=
  if bool_decide (column_id ∈ final) then final else final ++ [column_id].

Definition set_final_header (self : t) : t :=
  let hc := header_counts self in
  {| header_counts := hc; header_values := header_values self;
     header_order_final :=
       foldl (λ final column_num, foldl place final (sorted_ids hc column_num))
         (header_order_final self) (sorted_slots hc) |}.

Definition get_header (self : t) : list string * t :=
  let self :=
    match header_order_final self with
    | [] => set_final_header self
    | _ :: _ => self
    end in
  (header_order_final self, self).

(** ["Column: " + column_num]: adding an [int] to a [str] is a [TypeError]. *)
Definition str_add_int (s : string) (n : nat) : M string := raise TypeError.

(** The loop of [__str__]. *)
Fixpoint str_loop (cols : list (nat * string)) (return_str : string)
  : M string :=
  match cols with
  | [] => ret return_str
  | (column_num, column_id) :: cols' =>
      s ← str_add_int "Column: " column_num;
      str_loop cols'
        (return_str +:+ s +:+ " = " +:+ column_id
         +:+ String Py.newline EmptyString)
  end.

Definition __str__ (self : t) : M (string * t) :=
  let '(header_order_final, self) := get_header self in
  return_str ← str_loop (Py.enumerate header_order_final) EmptyString;
  ret (return_str, self).

End HeaderMapper.

(** ** File objects *)

Record file_obj := { name : string; pending : list string }.

(** What the file system holds at a path: the text [open] reads, and the
    decompressed text [gzip.open] reads. *)
Record file_system := {
  text_of : string → string;
  gunzip_of : string → string
}.

(** ** class FileData *)

Module FileData.

Record t := mk {
  file_name : string;
  header_arr : list string;
  header_length : nat;
  delimiter : string;
  data_arr : list (gmap string string)
}.

(** [for (col_num, column_id) in enumerate(self.header_arr):
       self.data_arr[-1][column_id] = line_spl[col_num]] *)
Fixpoint fill_row (line_spl : list string) (cols : list (nat * string))
    (row : gmap string string) : M (gmap string string) :=
  match cols with
  | [] => ret row
  | (col_num, column_id) :: cols' =>
      match line_spl !! col_num with
      | None => raise IndexError
      | Some v => fill_row line_spl cols' (<[column_id := v]> row)
      end
  end.

(** [line.isspace() or line[0] == '#'] *)
Definition skipped (line : string) : M bool :=
  if Py.isspace line then ret true
  else c ← first_char line; ret (Ascii.eqb c Py.hash).

(** The loop of [read_data]; [line_num] is the counter before the line read. *)
Fixpoint read_data_loop (self : t) (line_num : nat) (lines : list string)
  : M t :=
  match lines with
  | [] => ret self
  | line :: rest =>
      let line_num := line_num + 1 in
      skip ← skipped line;
      if (skip : bool) then read_data_loop self line_num rest
      else
        line_spl ← split (Py.rstrip_char Py.carriage_return
                            (Py.rstrip_char Py.newline line)) (delimiter self);
        if negb (length line_spl =? header_length self)
        then
          log (InconsistentColumns (file_name self) line_num (length line_spl)
                 (header_length self));;
          read_data_loop self line_num rest
        else
          row ← fill_row line_spl (Py.enumerate (header_arr self)) ∅;
          read_data_loop
            {| file_name := file_name self; header_arr := header_arr self;
               header_length := header_length self;
               delimiter := delimiter self;
               data_arr := data_arr self ++ [row] |}
            line_num rest
  end.

Definition read_data (self : t) (f : file_obj) : M t :=
  read_data_loop self 1 (pending f).

(** [__init__] *)
Definition init (header_arr : list string) (f : file_obj) (delimiter : string)
  : M t :=
  read_data
    {| file_name := name f; header_arr := header_arr;
       header_length := length header_arr; delimiter := delimiter;
       data_arr := [] |} f.

(** One output record of [get_ordered_output_array]. *)
Definition ordered_record (self : t) (ordered_array : list string)
    (null_value : string) (output_file_name : bool)
    (line_dict : gmap string string) : list string :=
  (if output_file_name then [file_name self] else [])
  ++ ((λ column_id, default null_value (line_dict !! column_id))
        <$> ordered_array).

Definition get_ordered_output_array (self : t) (ordered_array : list string)
    (null_value : string) (output_file_name : bool) : list (list string) :=
  ordered_record self ordered_array null_value output_file_name
    <$> data_arr self.

End FileData.

(** ** class FileHandler *)

Module FileHandler.

Record t := mk {
  delimiter : string;
  file_name_arr : list string;
  file_data_mapping : gmap string FileData.t;
  header_mapping : HeaderMapper.t
}.

(** [__init__] *)
Definition init (delimiter : string) : t :=
  {| delimiter := delimiter; file_name_arr := []; file_data_mapping := ∅;
     header_mapping := HeaderMapper.init |}.

(** What [read_header] returns: [False] or a list of column names. *)
Inductive header_t :=
| PyFalse
| Header (cols : list string).

(** [not file_header] *)
Definition falsy (h : header_t) : bool :=
  match h with
  | PyFalse | Header [] => true
  | Header (_ :: _) => false
  end.

(** The [while not header_string] loop of [read_header]. *)
Fixpoint read_header_loop (header_string : string) (lines : list string)
  : M (string * list string) :=
  match header_string with
  | String _ _ => ret (header_string, lines)
  | EmptyString =>
      match lines with
      | [] => raise StopIteration
      | raw :: rest =>
          let line := Py.rstrip raw in
          match line with
          | EmptyString => raise IndexError
          | String c _ =>
              if Ascii.eqb c Py.hash || Py.isspace line
              then read_header_loop EmptyString rest
              else read_header_loop line rest
          end
      end
  end.

Definition read_header (self : t) (f : file_obj) : M (header_t * file_obj) :=
  '(header_string, rest) ← read_header_loop EmptyString (pending f);
  let f := {| name := name f; pending := rest |} in
  match header_string with
  | EmptyString => log (FileIsEmpty (name f));; ret (PyFalse, f)
  | String _ _ =>
      cols ← split header_string (delimiter self); ret (Header cols, f)
  end.

(** The loop of [get_output_array]. *)
Fixpoint output_rows (self : t) (final_header : list string)
    (null_value : string) (output_file_name : bool) (names : list string)
    (out_array : list (list string)) : M (list (list string)) :=
  match names with
  | [] => ret out_array
  | f_name :: names' =>
      match file_data_mapping self !! f_name with
      | None => raise KeyError
      | Some fd =>
          output_rows self final_header null_value output_file_name names'
            (out_array
             ++ FileData.get_ordered_output_array fd final_header null_value
                  output_file_name)
      end
  end.

Definition get_output_array (self : t) (null_value : string)
    (output_file_name : bool) : M (list (list string) * t) :=
  let '(final_header, hm) := HeaderMapper.get_header (header_mapping self) in
  let self :=
    {| delimiter := delimiter self; file_name_arr := file_name_arr self;
       file_data_mapping := file_data_mapping self; header_mapping := hm |} in
  let out_array :=
    if output_file_name then [["file_path"] ++ final_header]
    else [final_header] in
  out_array ← output_rows self final_header null_value output_file_name
                (file_name_arr self) out_array;
  ret (out_array, self).

Definition transpose_array (array : list (list string)) : list (list string) :=
  Py.zip_star array.

Definition get_output_array_transposed (self : t) (null_value : string)
    (output_file_name : bool) : M (list (list string) * t) :=
  '(array, self) ← get_output_array self null_value output_file_name;
  ret (transpose_array array, self).

Definition open_file (fs : file_system) (file_path : string) : file_obj :=
  if decide (Py.last3 file_path = ".gz")
  then {| name := file_path; pending := Py.file_lines (gunzip_of fs file_path) |}
  else {| name := file_path; pending := Py.file_lines (text_of fs file_path) |}.

(** [add_file], reading the file system [fs] as it is at the call.  A
    [file_header] that is [False] reaches [add_header_arr], whose
    [enumerate] raises [TypeError]. *)
Definition add_file (fs : file_system) (self : t) (added_file_path : string)
  : M t :=
  let f := open_file fs added_file_path in
  '(file_header, f) ← read_header self f;
  (if falsy file_header then log (SkippingFile (name f)) else ret tt);;
  let names := file_name_arr self ++ [added_file_path] in
  match file_header with
  | PyFalse => raise TypeError
  | Header header_arr =>
      let hm := HeaderMapper.add_header_arr (header_mapping self) header_arr in
      fd ← FileData.init header_arr f (delimiter self);
      ret {| delimiter := delimiter self; file_name_arr := names;
             file_data_mapping := <[added_file_path := fd]> (file_data_mapping self);
             header_mapping := hm |}
  end.

(** The main loop [for file_name in files: file_mapper.add_file(file_name)];
    every call sees the file system of its own moment. *)
Fixpoint add_files (self : t) (calls : list (file_system * string)) : M t :=
  match calls with
  | [] => ret self
  | (fs, file_name) :: calls' =>
      self ← add_file fs self file_name; add_files self calls'
  end.

End FileHandler.

(** ** The main code body *)

Definition DEFAULT_DELIMITER : string := String Py.tab EmptyString.
Definition DEFAULT_OUTPUT_DELIMITER : string := String Py.tab EmptyString.
Definition DEFAULT_NA_VALUE : string := "None".

(** The main code body on a file system that does not change during the run. *)
Definition run (fs : file_system) (delimiter na_value : string)
    (output_file_name transpose : bool) (files : list string)
  : M (list (list string)) :=
  file_mapper ← FileHandler.add_files (FileHandler.init delimiter)
                  ((λ p, (fs, p)) <$> files);
  '(output_array, _) ←
    (if transpose
     then FileHandler.get_output_array_transposed file_mapper na_value
            output_file_name
     else FileHandler.get_output_array file_mapper na_value output_file_name);
  ret output_array.

Definition array_to_string (array : list (list string)) (delimiter : string)
  : string :=
  foldl (λ out_string row,
           out_string +:+ Py.join delimiter row
           +:+ String Py.newline EmptyString)
    EmptyString array.

(** The options [parse_options] returns. *)
Record options := {
  opt_delimiter : string;
  opt_output_file_name : bool;
  opt_na_value : string;
  opt_output_delimiter : string;
  opt_transpose : bool;
  opt_verbose : bool
}.

(** The main code body with its [print]: the text written to standard
    output. *)
Definition main (fs : file_system) (args : options) (files : list string)
  : M string :=
  output_array ← run fs (opt_delimiter args) (opt_na_value args)
                    (opt_output_file_name args) (opt_transpose args) files;
  ret (array_to_string output_array (opt_output_delimiter args)
       +:+ String Py.newline EmptyString).

Definition registered (headers : list (list string)) : HeaderMapper.t :=
  foldl HeaderMapper.add_header_arr HeaderMapper.init headers.

Definition canonical_header (headers : list (list string)) : list string :=
  (HeaderMapper.get_header (registered headers)).1.

(** * Vocabulary of the properties *)

(** ** Headers *)

(** The names the registered headers carry at slot [i], in registration
    order, and how many headers carry [x] there. *)
Definition names_at (headers : list (list string)) (i : nat) : list string :=
  omap (λ h : list string, h !! i) headers.
Definition frequency (headers : list (list string)) (i : nat) (x : string)
  : nat :=
  length (filter (λ y, y = x) (names_at headers i)).

(** The distinct elements of a list, each at its first occurrence. *)
Fixpoint first_seen (l : list string) : list string :=
  match l with
  | [] => []
  | x :: l' => x :: filter (λ y, y ≠ x) (first_seen l')
  end.

(** The keys of the count table of slot [j], in iteration order. *)
Definition keys_at (hc : gmap nat (Py.odict nat)) (j : nat) : list string :=
  Py.od_keys (default [] (hc !! j)).

(** The name [enumerate_from n h] pairs with slot [j]. *)
Definition column_from (n : nat) (h : list string) (j : nat) : option string :=
  if decide (n ≤ j) then h !! (j - n) else None.

(** What [set_final_header] computes from the slots it visits. *)
Definition final_order (hc : gmap nat (Py.odict nat)) (final : list string)
    (slots : list nat) : list string :=
  foldl (λ final column_num,
           foldl HeaderMapper.place final (HeaderMapper.sorted_ids hc column_num))
    final slots.


(** The slots at which [x] stands in [h], counted from [n], in ascending
    order. *)
Fixpoint positions_from (n : nat) (x : string) (h : list string) : list nat :=
  match h with
  | [] => []
  | y :: h' =>
      (if decide (y = x) then [n] else []) ++ positions_from (S n) x h'
  end.

(** The length of the longest header. *)
Definition max_len (headers : list (list string)) : nat :=
  foldr (λ h m, Nat.max (length h) m) 0 headers.

(** ** Lines and rows *)

(** A data line is a line that is neither blank nor a comment. *)
Definition starts_with_hash (line : string) : bool :=
  match line with
  | EmptyString => false
  | String c _ => Ascii.eqb c Py.hash
  end.
Definition is_data_line (line : string) : bool :=
  negb (Py.isspace line) && negb (starts_with_hash line).

(** A line that cannot be a header: only whitespace, or a comment. *)
Definition blank (raw : string) : bool := Py.all_chars Py.is_whitespace raw.
Definition no_header_line (raw : string) : bool :=
  blank raw || starts_with_hash raw.

(** The fields of a data line. *)
Definition fields (delimiter line : string) : list string :=
  Py.split_from delimiter 0 EmptyString
    (Py.rstrip_char Py.carriage_return (Py.rstrip_char Py.newline line)).

(** Fields zipped against the column names; a later duplicate name
    overwrites. *)
Definition zip_row (header_arr line_spl : list string) : gmap string string :=
  foldl (λ row kv, <[kv.1 := kv.2]> row) ∅ (zip header_arr line_spl).

(** The row a line leaves in the store, if any, and the rows of a sequence of
    lines, in line order. *)
Definition line_row (header_arr : list string) (delimiter line : string)
  : option (gmap string string) :=
  if is_data_line line
     && (length (fields delimiter line) =? length header_arr)
  then Some (zip_row header_arr (fields delimiter line))
  else None.
Definition stored_rows (header_arr : list string) (delimiter : string)
    (lines : list string) : list (gmap string string) :=
  omap (line_row header_arr delimiter) lines.

(** The diagnostics of the lines after line number [n]. *)
Definition line_diag (file_name : string) (header_arr : list string)
    (delimiter : string) (line_num : nat) (line : string) : list diag :=
  if is_data_line line
     && negb (length (fields delimiter line) =? length header_arr)
  then [InconsistentColumns file_name line_num
          (length (fields delimiter line)) (length header_arr)]
  else [].
Fixpoint diags_from (file_name : string) (header_arr : list string)
    (delimiter : string) (n : nat) (lines : list string) : list diag :=
  match lines with
  | [] => []
  | line :: rest =>
      line_diag file_name header_arr delimiter (n + 1) line
      ++ diags_from file_name header_arr delimiter (n + 1) rest
  end.

Definition with_rows (self : FileData.t) (rows : list (gmap string string))
  : FileData.t :=
  {| FileData.file_name := FileData.file_name self;
     FileData.header_arr := FileData.header_arr self;
     FileData.header_length := FileData.header_length self;
     FileData.delimiter := FileData.delimiter self;
     FileData.data_arr := rows |}.

(** The last character of a string, and strings in which a character does
    not occur. *)
Fixpoint last_char (s : string) : option ascii :=
  match s with
  | EmptyString => None
  | String c EmptyString => Some c
  | String _ s' => last_char s'
  end.
Definition free_of (c : ascii) (s : string) : bool :=
  Py.all_chars (λ a, negb (Ascii.eqb a c)) s.

(** A cell that can be written and read back: it holds no output delimiter
    [c], no newline and no carriage return. *)
Definition clean_cell (c : ascii) (cell : string) : bool :=
  free_of c cell && free_of Py.newline cell && free_of Py.carriage_return cell.
Definition clean_record (c : ascii) (row : list string) : Prop :=
  row ≠ [] ∧ Forall (λ cell, clean_cell c cell = true) row.

(** ** Files and calls *)

(** The header of the file at [p] in [fs] and the lines after it. *)
Definition header_and_lines (fs : file_system) (delim p : string)
  : option (list string * list string) :=
  match FileHandler.read_header (FileHandler.init delim)
          (FileHandler.open_file fs p) with
  | (_, Ok (FileHandler.Header h, f)) => Some (h, pending f)
  | _ => None
  end.

(** The store of a file: the rows of its lines after the header, in line
    order. *)
Definition file_data (p : string) (delim : string)
    (hl : list string * list string) : FileData.t :=
  {| FileData.file_name := p; FileData.header_arr := hl.1;
     FileData.header_length := length hl.1; FileData.delimiter := delim;
     FileData.data_arr := stored_rows hl.1 delim hl.2 |}.
Definition loaded (fs : file_system) (delim p : string) : option FileData.t :=
  file_data p delim <$> header_and_lines fs delim p.

(** The file system of the last call that named [p]. *)
Definition last_call (calls : list (file_system * string)) (p : string)
  : option file_system :=
  fst <$> last (filter (λ c, c.2 = p) calls).

(** The headers a run of calls registers. *)
Definition call_headers (calls : list (file_system * string)) (delim : string)
  : list (list string) :=
  omap (λ c, fst <$> header_and_lines c.1 delim c.2) calls.

(** The rows [self] holds for a file name. *)
Definition block_of (self : FileHandler.t) (final : list string)
    (null_value : string) (output_file_name : bool) (f_name : string)
  : list (list string) :=
  match FileHandler.file_data_mapping self !! f_name with
  | Some fd =>
      FileData.get_ordered_output_array fd final null_value output_file_name
  | None => []
  end.

(** The rows the table holds for a call of [add_file] on [p], given the file
    system of the last call on [p]. *)
Definition row_block (ingested : option file_system) (delim : string)
    (final : list string) (null_value : string) (output_file_name : bool)
    (p : string) : list (list string) :=
  match ingested ≫= (λ fs, loaded fs delim p) with
  | Some fd =>
      FileData.get_ordered_output_array fd final null_value output_file_name
  | None => []
  end.

(** The block of the file at [p]: one record per stored row, in the order of
    the file's lines after its header. *)
Definition file_rows (fs : file_system) (delim : string)
    (final : list string) (na_value : string) (output_file_name : bool)
    (p : string) : list (list string) :=
  match header_and_lines fs delim p with
  | Some (h, rest) =>
      (λ row : gmap string string,
         (if output_file_name then [p] else [])
         ++ ((λ column_id, default na_value (row !! column_id)) <$> final))
        <$> stored_rows h delim rest
  | None => []
  end.

(** The lines of a file that leave a row, and their fields. *)
Definition kept_line (h : list string) (delim line : string) : bool :=
  is_data_line line && (length (fields delim line) =? length h).
Definition kept_fields (fs : file_system) (delim p : string)
  : list (list string) :=
  match header_and_lines fs delim p with
  | Some (h, rest) =>
      fields delim <$> filter (λ line, kept_line h delim line = true) rest
  | None => []
  end.

(** The position of a column name in a header, and the cell a line with
    fields [fl] under header [h] shows in column [c]: its field at the
    position of [c], or the null value when [h] has no such column. *)
Fixpoint index_of (c : string) (h : list string) : option nat :=
  match h with
  | [] => None
  | y :: h' => if decide (y = c) then Some 0 else S <$> index_of c h'
  end.
Definition cell_of (h fl : list string) (na_value c : string) : string :=
  default na_value (index_of c h ≫= (λ k, fl !! k)).

(** The records the file at [p] contributes for the columns [final]. *)
Definition projected_fields (fs : file_system) (delim na_value : string)
    (final : list string) (p : string) : list (list string) :=
  match header_and_lines fs delim p with
  | Some (h, _) =>
      (λ fl, cell_of h fl na_value <$> final) <$> kept_fields fs delim p
  | None => []
  end.

(** The diagnostics the file at [p] causes. *)
Definition file_diags (fs : file_system) (delim p : string) : list diag :=
  match header_and_lines fs delim p with
  | Some (h, rest) => diags_from p h delim 1 rest
  | None => []
  end.

(** ** Example inputs *)

Definition NL : string := String Py.newline EmptyString.
Definition TAB : string := String Py.tab EmptyString.

(** A file system given by the texts of its files. *)
Definition files_of (texts : list (string * string)) : file_system :=
  {| text_of := λ p, default EmptyString (Py.od_get p texts);
     gunzip_of := λ _, EmptyString |}.

(** The two reports of the specification's end-to-end example, an empty
    file, and a file that starts with a blank line. *)
Definition reports : file_system :=
  files_of
    [("A", "id" +:+ TAB +:+ "name" +:+ NL +:+ "1" +:+ TAB +:+ "Alice" +:+ NL);
     ("B", "name" +:+ TAB +:+ "score" +:+ NL +:+ "Bob" +:+ TAB +:+ "99" +:+ NL);
     ("E", EmptyString);
     ("F", NL +:+ "a" +:+ TAB +:+ "b" +:+ NL +:+ "1" +:+ TAB +:+ "2" +:+ NL)].

(** One path whose text changes between two calls. *)
Definition before_edit : file_system :=
  files_of [("A", "x" +:+ NL +:+ "1" +:+ NL)].
Definition after_edit : file_system :=
  files_of [("A", "x" +:+ NL +:+ "2" +:+ NL +:+ "3" +:+ NL)].

(** * Properties *)

(** ** Insertion-ordered dicts *)

Section odict_facts.
Context {V : Type}.
Implicit Types (d : Py.odict V) (k : string) (v : V).

Lemma od_get_None k d : Py.od_get k d = None ↔ k ∉ Py.od_keys d.
Proof.
  induction d as [|[k' v'] d IH]; simpl.
  - split; [intros _; apply not_elem_of_nil | done].
  - destruct (decide (k' = k)) as [->|Hne].
    + split; [intros [=] | intros Hk; exfalso; apply Hk; left].
    + rewrite IH, not_elem_of_cons. split; [by split | by intros [_ ?]].
Qed.

Lemma od_get_set k k' v d :
  Py.od_get k' (Py.od_set k v d) = if decide (k = k') then Some v else Py.od_get k' d.
Proof.
  induction d as [|[k0 v0] d IH]; simpl.
  - destruct (decide (k = k')); done.
  - destruct (decide (k0 = k)) as [->|]; simpl.
    + destruct (decide (k = k')); done.
    + rewrite IH. destruct (decide (k0 = k')) as [->|]; [|done].
      by rewrite decide_False.
Qed.

Lemma od_keys_set k v d :
  Py.od_keys (Py.od_set k v d)
  = if decide (k ∈ Py.od_keys d) then Py.od_keys d else Py.od_keys d ++ [k].
Proof.
  induction d as [|[k0 v0] d IH]; simpl.
  - done.
  - destruct (decide (k0 = k)) as [->|Hne]; simpl.
    + rewrite decide_True by left. done.
    + unfold Py.od_keys in *. rewrite IH.
      destruct (decide (k ∈ d.*1)) as [Hin|Hin].
      * rewrite decide_True by (by right). done.
      * rewrite decide_False; [done|].
        rewrite not_elem_of_cons. done.
Qed.

End odict_facts.

(** ** The stable descending sort *)

Section sorted_desc_facts.
Context {A : Type} (key : A → nat).
Implicit Types (x : A) (l : list A).

Lemma insert_desc_perm x l : Py.insert_desc key x l ≡ₚ x :: l.
Proof.
  induction l as [|y l IH]; simpl; [done|].
  destruct (key x <? key y); [|done].
  rewrite IH. apply Permutation_swap.
Qed.

Lemma sorted_desc_perm l : Py.sorted_desc key l ≡ₚ l.
Proof.
  induction l as [|x l IH]; simpl; [done|].
  by rewrite insert_desc_perm, IH.
Qed.

Lemma insert_desc_sorted x l :
  StronglySorted (λ a b, key b ≤ key a) l →
  StronglySorted (λ a b, key b ≤ key a) (Py.insert_desc key x l).
Proof.
  induction 1 as [|y l Hl IH Hy]; simpl.
  - repeat constructor.
  - destruct (key x <? key y) eqn:E.
    + apply Nat.ltb_lt in E. constructor; [done|].
      rewrite insert_desc_perm. constructor; [lia | done].
    + apply Nat.ltb_ge in E. constructor; [by constructor|].
      constructor; [done|].
      eapply Forall_impl; [exact Hy|]. simpl. intros; lia.
Qed.

Lemma sorted_desc_sorted l :
  StronglySorted (λ a b, key b ≤ key a) (Py.sorted_desc key l).
Proof.
  induction l as [|x l IH]; simpl; [constructor|].
  by apply insert_desc_sorted.
Qed.



End sorted_desc_facts.


(** ** Placing names once *)

Section place_facts.
Import HeaderMapper.
Implicit Types (x : string) (l acc : list string).

Lemma place_elem acc y x : x ∈ place acc y ↔ x ∈ acc ∨ x = y.
Proof.
  unfold place. case_bool_decide as Hy.
  - split; [by left | intros [?| ->]; done].
  - rewrite elem_of_app, list_elem_of_singleton. done.
Qed.

Lemma place_NoDup acc y : NoDup acc → NoDup (place acc y).
Proof.
  intros Hacc. unfold place. case_bool_decide as Hy; [done|].
  apply NoDup_app. split; [done|]. split; [|apply NoDup_singleton].
  intros x Hx Hxy. apply list_elem_of_singleton in Hxy as ->. done.
Qed.

Lemma foldl_place_elem acc l x : x ∈ foldl place acc l ↔ x ∈ acc ∨ x ∈ l.
Proof.
  revert acc; induction l as [|y l IH]; intros acc; simpl.
  - split; [by left | intros [?|H]; [done | by apply elem_of_nil in H]].
  - rewrite IH, place_elem, elem_of_cons. tauto.
Qed.

Lemma foldl_place_NoDup acc l : NoDup acc → NoDup (foldl place acc l).
Proof.
  revert acc; induction l as [|y l IH]; intros acc Hacc; simpl; [done|].
  by apply IH, place_NoDup.
Qed.

Lemma foldl_place_fresh acc l : NoDup (acc ++ l) → foldl place acc l = acc ++ l.
Proof.
  revert acc; induction l as [|y l IH]; intros acc Hnd; simpl.
  - by rewrite app_nil_r.
  - assert (Hy : y ∉ acc).
    { apply NoDup_app in Hnd as (_ & Hd & _). intros Hin.
      apply (Hd y Hin). left. }
    unfold place at 2. rewrite bool_decide_eq_false_2 by done.
    rewrite IH, <- app_assoc; [done|]. by rewrite <- app_assoc.
Qed.

Lemma foldl_place_filter acc l :
  foldl place acc l = acc ++ filter (λ y, y ∉ acc) (first_seen l).
Proof.
  revert acc; induction l as [|x l IH]; intros acc.
  - simpl. by rewrite app_nil_r.
  - cbn [foldl first_seen]. rewrite IH. unfold place.
    case_bool_decide as Hx.
    + rewrite filter_cons_False by (by intros ?).
      by rewrite list_filter_filter_l by (intros y ? ->; done).
    + rewrite filter_cons_True by done.
      rewrite list_filter_filter, <- app_assoc. simpl. do 2 f_equal.
      apply list_filter_iff. intros y.
      rewrite not_elem_of_app, list_elem_of_singleton. done.
Qed.

Lemma foldl_place_first_seen l : foldl place [] l = first_seen l.
Proof.
  rewrite foldl_place_filter. simpl.
  induction (first_seen l) as [|y l' IH]; [done|].
  rewrite filter_cons_True by apply not_elem_of_nil. by rewrite IH.
Qed.

End place_facts.

(** ** The bookkeeping of [HeaderMapper] *)

Section header_mapper_facts.
Import HeaderMapper.
Implicit Types (self : HeaderMapper.t) (h : list string) (i j n : nat)
  (x y : string).

Lemma ensure_slot (hc : gmap nat (Py.odict nat)) i :
  default [] (match hc !! i with
              | None => <[i:=[]]> hc
              | Some _ => hc
              end !! i) = default [] (hc !! i).
Proof.
  destruct (hc !! i) as [d|] eqn:E; [by rewrite E | by rewrite lookup_insert_eq].
Qed.

Lemma add_column_final self c :
  header_order_final (add_column self c) = header_order_final self.
Proof. by destruct c. Qed.

Lemma add_column_keys self i x j :
  keys_at (header_counts (add_column self (i, x))) j
  = if decide (j = i) then place (keys_at (header_counts self) j) x
    else keys_at (header_counts self) j.
Proof.
  unfold keys_at, add_column; simpl.
  destruct (decide (j = i)) as [->|Hne].
  - rewrite lookup_insert_eq; simpl.
    rewrite ensure_slot. set (d := default [] (header_counts self !! i)).
    unfold place. rewrite od_keys_set.
    destruct (Py.od_get x d) eqn:E.
    + assert (x ∈ Py.od_keys d).
      { destruct (decide (x ∈ Py.od_keys d)); [done|].
        apply od_get_None in n0. congruence. }
      rewrite decide_True, bool_decide_eq_true_2; done.
    + apply od_get_None in E. rewrite od_keys_set.
      rewrite (decide_False _ _ E), bool_decide_eq_false_2 by done.
      rewrite decide_True; [done|]. apply elem_of_app; right; left.
  - rewrite lookup_insert_ne by done.
    destruct (header_counts self !! i); [done|].
    by rewrite lookup_insert_ne.
Qed.

Lemma add_column_count self i x j y :
  count_at (header_counts (add_column self (i, x))) j y
  = count_at (header_counts self) j y
    + (if decide (j = i ∧ y = x) then 1 else 0).
Proof.
  unfold count_at, add_column; simpl.
  destruct (decide (j = i)) as [->|Hne].
  - rewrite lookup_insert_eq; simpl.
    rewrite ensure_slot. set (d := default [] (header_counts self !! i)).
    rewrite od_get_set.
    destruct (decide (x = y)) as [->|Hxy].
    + rewrite decide_True by done. simpl.
      destruct (Py.od_get y d) eqn:E; simpl; [by rewrite E|].
      by rewrite od_get_set, decide_True.
    + rewrite decide_False by (intros [_ ?]; congruence).
      destruct (Py.od_get x d) eqn:E; simpl; [lia|].
      rewrite od_get_set, decide_False by done. lia.
  - rewrite decide_False by (by intros [? _]).
    rewrite lookup_insert_ne by done.
    destruct (header_counts self !! i); [lia|].
    rewrite lookup_insert_ne by done. lia.
Qed.

Lemma add_column_dom self i x j :
  is_Some (header_counts (add_column self (i, x)) !! j)
  ↔ is_Some (header_counts self !! j) ∨ j = i.
Proof.
  unfold add_column; simpl.
  destruct (decide (j = i)) as [->|Hne].
  - rewrite lookup_insert_eq. split; [by right | by eexists].
  - rewrite lookup_insert_ne by done.
    destruct (header_counts self !! i);
      rewrite ?lookup_insert_ne by done; tauto.
Qed.

Local Arguments add_column : simpl never.
Local Arguments add_header_arr : simpl never.

Lemma column_from_cons n x h j :
  column_from n (x :: h) j
  = if decide (j = n) then Some x else column_from (S n) h j.
Proof.
  unfold column_from.
  destruct (decide (j = n)) as [->|Hne].
  - rewrite decide_True, Nat.sub_diag by lia. done.
  - destruct (decide (n ≤ j)) as [Hle|Hgt].
    + rewrite decide_True by lia.
      replace (j - n) with (S (j - S n)) by lia. done.
    + rewrite decide_False by lia. done.
Qed.

Lemma column_from_0 h j : column_from 0 h j = h !! j.
Proof. unfold column_from. by rewrite decide_True, Nat.sub_0_r by lia. Qed.

Lemma add_columns_final self n h :
  header_order_final (foldl add_column self (Py.enumerate_from n h))
  = header_order_final self.
Proof.
  revert self n; induction h as [|x h IH]; intros self n; simpl; [done|].
  by rewrite IH.
Qed.

Lemma add_columns_keys self n h j :
  keys_at (header_counts (foldl add_column self (Py.enumerate_from n h))) j
  = match column_from n h j with
    | Some x => place (keys_at (header_counts self) j) x
    | None => keys_at (header_counts self) j
    end.
Proof.
  revert self n; induction h as [|x h IH]; intros self n; simpl.
  - unfold column_from. destruct (decide (n ≤ j)); [|done].
    by rewrite lookup_nil.
  - rewrite IH, add_column_keys, column_from_cons.
    destruct (decide (j = n)) as [->|Hne]; [|done].
    unfold column_from. by rewrite decide_False by lia.
Qed.

Lemma add_columns_count self n h j y :
  count_at (header_counts (foldl add_column self (Py.enumerate_from n h))) j y
  = count_at (header_counts self) j y
    + (if decide (column_from n h j = Some y) then 1 else 0).
Proof.
  revert self n; induction h as [|x h IH]; intros self n; simpl.
  - rewrite decide_False; [lia|].
    unfold column_from. destruct (decide (n ≤ j)); [|done].
    by rewrite lookup_nil.
  - rewrite IH, add_column_count, column_from_cons.
    destruct (decide (j = n)) as [->|Hne].
    + assert (Hn : column_from (S n) h n = None).
      { unfold column_from. by rewrite decide_False by lia. }
      rewrite Hn.
      repeat case_decide; try lia; exfalso; intuition congruence.
    + rewrite (decide_False (P := j = n ∧ y = x)) by (by intros [? _]). lia.
Qed.

Lemma add_columns_dom self n h j :
  is_Some (header_counts (foldl add_column self (Py.enumerate_from n h)) !! j)
  ↔ is_Some (header_counts self !! j) ∨ (n ≤ j < n + length h).
Proof.
  revert self n; induction h as [|x h IH]; intros self n; simpl.
  - split; [by left | intros [?|?]; [done | lia]].
  - rewrite IH, add_column_dom. split.
    + intros [[?| ->]|?]; [by left | right; lia | right; lia].
    + intros [?|?]; [by left; left|].
      destruct (decide (j = n)) as [->|]; [left; by right | right; lia].
Qed.

(** What [add_header_arr] does to the bookkeeping. *)
Lemma add_header_arr_final self h :
  header_order_final (add_header_arr self h) = header_order_final self.
Proof. apply add_columns_final. Qed.

Lemma add_header_arr_keys self h j :
  keys_at (header_counts (add_header_arr self h)) j
  = match h !! j with
    | Some x => place (keys_at (header_counts self) j) x
    | None => keys_at (header_counts self) j
    end.
Proof.
  unfold add_header_arr, Py.enumerate.
  by rewrite add_columns_keys, column_from_0.
Qed.

Lemma add_header_arr_count self h j y :
  count_at (header_counts (add_header_arr self h)) j y
  = count_at (header_counts self) j y
    + (if decide (h !! j = Some y) then 1 else 0).
Proof.
  unfold add_header_arr, Py.enumerate.
  by rewrite add_columns_count, column_from_0.
Qed.

Lemma add_header_arr_dom self h j :
  is_Some (header_counts (add_header_arr self h) !! j)
  ↔ is_Some (header_counts self !! j) ∨ j < length h.
Proof.
  unfold add_header_arr, Py.enumerate. rewrite add_columns_dom.
  split; (intros [?|?]; [by left | right; lia]).
Qed.

(** The bookkeeping after a sequence of registrations. *)
Lemma foldl_add_final self hs :
  header_order_final (foldl add_header_arr self hs) = header_order_final self.
Proof.
  revert self; induction hs as [|h hs IH]; intros self; simpl; [done|].
  by rewrite IH, add_header_arr_final.
Qed.

Lemma names_at_cons h hs j :
  names_at (h :: hs) j
  = match h !! j with
    | Some x => x :: names_at hs j
    | None => names_at hs j
    end.
Proof. unfold names_at. simpl. by destruct (h !! j). Qed.

Lemma frequency_cons h hs j y :
  frequency (h :: hs) j y
  = (if decide (h !! j = Some y) then 1 else 0) + frequency hs j y.
Proof.
  unfold frequency. rewrite names_at_cons.
  destruct (h !! j) as [x|]; [|by rewrite decide_False].
  rewrite filter_cons. destruct (decide (x = y)) as [->|Hxy].
  - by rewrite decide_True.
  - by rewrite decide_False by congruence.
Qed.

Lemma foldl_add_keys self hs j :
  keys_at (header_counts (foldl add_header_arr self hs)) j
  = foldl place (keys_at (header_counts self) j) (names_at hs j).
Proof.
  revert self; induction hs as [|h hs IH]; intros self; [done|].
  rewrite names_at_cons. cbn [foldl]. rewrite IH, add_header_arr_keys.
  by destruct (h !! j).
Qed.

Lemma foldl_add_count self hs j y :
  count_at (header_counts (foldl add_header_arr self hs)) j y
  = count_at (header_counts self) j y + frequency hs j y.
Proof.
  revert self; induction hs as [|h hs IH]; intros self.
  - unfold frequency; simpl. lia.
  - rewrite frequency_cons. cbn [foldl].
    rewrite IH, add_header_arr_count. lia.
Qed.

Lemma foldl_add_dom self hs j :
  is_Some (header_counts (foldl add_header_arr self hs) !! j)
  ↔ is_Some (header_counts self !! j) ∨ ∃ h, h ∈ hs ∧ j < length h.
Proof.
  revert self; induction hs as [|h hs IH]; intros self; simpl.
  - split; [by left | intros [?|(h & Hh & _)]; [done|]].
    by apply elem_of_nil in Hh.
  - rewrite IH, add_header_arr_dom. split.
    + intros [[?|?]|(h' & ? & ?)]; [by left | right; exists h | right; exists h'].
      * split; [left | done].
      * split; [by right | done].
    + intros [?|(h' & Hh & ?)]; [by left; left|].
      apply elem_of_cons in Hh as [ ->|?]; [left; by right|].
      right; by exists h'.
Qed.

Lemma registered_keys hs j :
  keys_at (header_counts (registered hs)) j = first_seen (names_at hs j).
Proof.
  unfold registered. rewrite foldl_add_keys. apply foldl_place_first_seen.
Qed.


Lemma registered_dom hs j :
  is_Some (header_counts (registered hs) !! j) ↔ ∃ h, h ∈ hs ∧ j < length h.
Proof.
  unfold registered. rewrite foldl_add_dom. simpl.
  rewrite lookup_empty. split; [intros [[? [=]]|?]; done | by right].
Qed.

(** The slots in ascending order. *)
Lemma sorted_slots_elem (hc : gmap nat (Py.odict nat)) j :
  j ∈ sorted_slots hc ↔ is_Some (hc !! j).
Proof.
  unfold sorted_slots. rewrite merge_sort_Permutation, list_elem_of_fmap.
  split.
  - intros ([j' d] & -> & Hin). apply elem_of_map_to_list in Hin. by exists d.
  - intros [d Hd]. exists (j, d). split; [done|]. by apply elem_of_map_to_list.
Qed.

Lemma Sorted_seq k m : Sorted le (seq k m).
Proof.
  revert k; induction m as [|m IH]; intros k; simpl; [constructor|].
  constructor; [apply IH|]. destruct m; simpl; constructor. lia.
Qed.

Lemma sorted_slots_seq (hc : gmap nat (Py.odict nat)) m :
  (∀ j, is_Some (hc !! j) ↔ j < m) → sorted_slots hc = seq 0 m.
Proof.
  intros Hdom. apply (Sorted_unique (≤)).
  - apply Sorted_merge_sort; apply _.
  - apply Sorted_seq.
  - apply NoDup_Permutation.
    + unfold sorted_slots. rewrite merge_sort_Permutation.
      apply NoDup_fst_map_to_list.
    + apply NoDup_seq.
    + intros j. rewrite sorted_slots_elem, Hdom, elem_of_seq. lia.
Qed.

Lemma sorted_ids_elem (hc : gmap nat (Py.odict nat)) j x :
  x ∈ sorted_ids hc j ↔ x ∈ keys_at hc j.
Proof. unfold sorted_ids. by rewrite sorted_desc_perm. Qed.

Lemma final_order_elem hc final slots x :
  x ∈ final_order hc final slots
  ↔ x ∈ final ∨ ∃ j, j ∈ slots ∧ x ∈ keys_at hc j.
Proof.
  revert final; induction slots as [|i slots IH]; intros final; simpl.
  - split; [by left | intros [?|(j & Hj & _)]; [done|]].
    by apply elem_of_nil in Hj.
  - rewrite IH, foldl_place_elem, sorted_ids_elem. split.
    + intros [[?|?]|(j & ? & ?)]; [by left | right; exists i | right; exists j].
      * split; [left | done].
      * split; [by right | done].
    + intros [?|(j & Hj & ?)]; [by left; left|].
      apply elem_of_cons in Hj as [ ->|?]; [left; by right|].
      right; by exists j.
Qed.

Lemma final_order_NoDup hc final slots :
  NoDup final → NoDup (final_order hc final slots).
Proof.
  revert final; induction slots as [|i slots IH]; intros final Hnd; simpl.
  - done.
  - by apply IH, foldl_place_NoDup.
Qed.

Lemma final_order_columns hc h k final :
  (∀ j x, h !! j = Some x → sorted_ids hc (k + j) = [x]) →
  final_order hc final (seq k (length h)) = foldl place final h.
Proof.
  revert k final; induction h as [|x h IH]; intros k final Hids; simpl.
  - done.
  - pose proof (Hids 0 x eq_refl) as H0. rewrite Nat.add_0_r in H0.
    unfold final_order in *. rewrite H0. simpl.
    apply IH. intros j y Hj.
    rewrite <- (Hids (S j) y Hj). f_equal. lia.
Qed.

Lemma canonical_header_eq hs :
  canonical_header hs
  = final_order (header_counts (registered hs)) []
      (sorted_slots (header_counts (registered hs))).
Proof.
  unfold canonical_header, get_header.
  assert (Hf : header_order_final (registered hs) = []).
  { unfold registered. by rewrite foldl_add_final. }
  rewrite Hf. simpl. unfold final_order. by rewrite Hf.
Qed.

Lemma names_at_elem hs j x :
  x ∈ names_at hs j ↔ ∃ h, h ∈ hs ∧ h !! j = Some x.
Proof. unfold names_at. by rewrite list_elem_of_omap. Qed.

Lemma first_seen_elem l x : x ∈ first_seen l ↔ x ∈ l.
Proof.
  rewrite <- foldl_place_first_seen, foldl_place_elem.
  split; [intros [H|?]; [by apply elem_of_nil in H | done] | by right].
Qed.

Lemma first_seen_NoDup l : NoDup (first_seen l).
Proof.
  rewrite <- foldl_place_first_seen. apply foldl_place_NoDup, NoDup_nil_2.
Qed.

Lemma keys_at_missing (hc : gmap nat (Py.odict nat)) j :
  hc !! j = None → keys_at hc j = [].
Proof. unfold keys_at. by intros ->. Qed.

Lemma names_at_replicate n h j :
  names_at (replicate n h) j
  = match h !! j with
    | Some x => replicate n x
    | None => []
    end.
Proof.
  induction n as [|n IH].
  - by destruct (h !! j).
  - cbn [replicate]. rewrite names_at_cons, IH. by destruct (h !! j).
Qed.

Lemma first_seen_replicate n x : first_seen (replicate (S n) x) = [x].
Proof.
  rewrite <- foldl_place_first_seen. simpl. unfold place at 2. simpl.
  induction n as [|n IH]; simpl; [done|].
  unfold place at 2. rewrite bool_decide_eq_true_2 by left. done.
Qed.

End header_mapper_facts.

(** ** Reading the data lines *)

Section monad_facts.
Context {A B : Type}.

Lemma bind_ret (a : A) (k : A → M B) : (x ← ret a; k x) = k a.
Proof. unfold mbind, M_bind, bind, ret. by destruct (k a). Qed.

Lemma bind_raise (e : exn) (k : A → M B) : (x ← raise e; k x) = raise e.
Proof. done. Qed.

Lemma bind_ok l (a : A) (k : A → M B) :
  (x ← (l, Ok a); k x) = (l ++ (k a).1, (k a).2).
Proof. unfold mbind, M_bind, bind. by destruct (k a). Qed.

End monad_facts.

Section file_data_facts.
Import FileData.
Implicit Types (self : FileData.t) (line : string) (lines : list string).

Lemma file_lines_nonempty text : Forall (λ line, line ≠ EmptyString) (Py.file_lines text).
Proof.
  induction text as [|c text IH]; simpl; [constructor|].
  destruct (Ascii.eqb c Py.newline); [by constructor|].
  destruct (Py.file_lines text); [by repeat constructor|].
  apply Forall_cons in IH as [_ ?]. by constructor.
Qed.

Lemma skipped_spec line :
  line ≠ EmptyString → skipped line = ret (negb (is_data_line line)).
Proof.
  intros Hne. unfold skipped, is_data_line.
  destruct (Py.isspace line); [done|].
  destruct line as [|c line]; [done|]. simpl.
  by rewrite negb_involutive.
Qed.

Lemma fill_row_zip line_spl h n row :
  n + length h ≤ length line_spl →
  fill_row line_spl (Py.enumerate_from n h) row
  = ret (foldl (λ row kv, <[kv.1 := kv.2]> row) row (zip h (drop n line_spl))).
Proof.
  revert n row; induction h as [|x h IH]; intros n row Hlen; simpl; [done|].
  destruct (line_spl !! n) as [v|] eqn:E.
  - rewrite (drop_S _ _ _ E). simpl. apply IH. simpl in Hlen. lia.
  - apply lookup_ge_None in E. simpl in Hlen. lia.
Qed.

Lemma read_data_loop_spec self n lines :
  delimiter self ≠ EmptyString →
  header_length self = length (header_arr self) →
  Forall (λ line, line ≠ EmptyString) lines →
  read_data_loop self n lines
  = (diags_from (file_name self) (header_arr self) (delimiter self) n lines,
     Ok (with_rows self
           (data_arr self
            ++ stored_rows (header_arr self) (delimiter self) lines))).
Proof.
  intros Hd Hlen Hlines. revert self n Hd Hlen.
  induction Hlines as [|line lines Hline _ IH]; intros self n Hd Hlen.
  - simpl. rewrite app_nil_r. by destruct self.
  - cbn [read_data_loop diags_from]. unfold stored_rows. cbn [omap list_omap].
    fold (stored_rows (header_arr self) (delimiter self) lines).
    rewrite (skipped_spec _ Hline), bind_ret.
    unfold line_row, line_diag.
    destruct (is_data_line line); simpl.
    + unfold split. destruct (delimiter self) as [|c0 d0] eqn:Ed; [done|].
      rewrite bind_ret. fold (fields (String c0 d0) line).
      rewrite Hlen.
      destruct (length (fields (String c0 d0) line) =? length (header_arr self))
        eqn:Ef; simpl.
      * apply Nat.eqb_eq in Ef.
        unfold Py.enumerate. rewrite fill_row_zip by (simpl; lia).
        rewrite bind_ret, drop_0.
        rewrite IH; simpl; [|done|done].
        unfold with_rows; simpl. by rewrite Ed, Hlen, <- app_assoc.
      * rewrite IH by (by rewrite ?Ed). by rewrite Ed.
    + by rewrite IH.
Qed.

Lemma init_spec h f delim :
  delim ≠ EmptyString →
  Forall (λ line, line ≠ EmptyString) (pending f) →
  init h f delim
  = (diags_from (name f) h delim 1 (pending f),
     Ok {| file_name := name f; header_arr := h; header_length := length h;
           delimiter := delim;
           data_arr := stored_rows h delim (pending f) |}).
Proof.
  intros Hd Hlines. unfold init, read_data.
  by rewrite read_data_loop_spec.
Qed.

Lemma stored_rows_app h delim l1 l2 :
  stored_rows h delim (l1 ++ l2)
  = stored_rows h delim l1 ++ stored_rows h delim l2.
Proof. unfold stored_rows. apply omap_app. Qed.

Lemma diags_from_app file_name h delim n l1 l2 :
  diags_from file_name h delim n (l1 ++ l2)
  = diags_from file_name h delim n l1
    ++ diags_from file_name h delim (n + length l1) l2.
Proof.
  revert n; induction l1 as [|line l1 IH]; intros n; simpl.
  - by rewrite Nat.add_0_r.
  - rewrite IH, <- app_assoc. do 3 f_equal. lia.
Qed.

End file_data_facts.


(** ** Rows and projection *)

(** C6. A data line whose field count differs from the header length leaves
    no row: the store is the rows of the lines before it followed by the rows
    of the lines after it, the same store the file without that line gives.
    The diagnostic for the line, with its line number counted from the
    header, is logged, and reading goes on to the end of the file. *)
Theorem mismatched_line_is_discarded
    (header_arr : list string) (f : file_obj) (delimiter : string)
    (pre : list string) (line : string) (post : list string) :
  delimiter ≠ EmptyString →
  Forall (λ l, l ≠ EmptyString) (pending f) →
  pending f = pre ++ line :: post →
  is_data_line line = true →
  length (fields delimiter line) ≠ length header_arr →
  ∃ diags fd diags' fd',
    FileData.init header_arr f delimiter = (diags, Ok fd)
    ∧ FileData.init header_arr {| name := name f; pending := pre ++ post |}
        delimiter = (diags', Ok fd')
    ∧ FileData.data_arr fd = FileData.data_arr fd'
    ∧ FileData.data_arr fd
      = stored_rows header_arr delimiter pre
        ++ stored_rows header_arr delimiter post
    ∧ InconsistentColumns (name f) (length pre + 2)
        (length (fields delimiter line)) (length header_arr) ∈ diags.
Proof.
  intros Hd Hlines Hf Hdata Hcols.
  assert (Hlines' : Forall (λ l, l ≠ EmptyString) (pre ++ post)).
  { rewrite Hf in Hlines. apply Forall_app in Hlines as [? Hl].
    apply Forall_cons in Hl as [_ ?]. by apply Forall_app. }
  assert (Hrow : line_row header_arr delimiter line = None).
  { unfold line_row. rewrite Hdata. simpl.
    by rewrite (proj2 (Nat.eqb_neq _ _) Hcols). }
  do 4 eexists.
  split; [by apply init_spec|]. split; [by apply init_spec|]. simpl.
  rewrite Hf, !stored_rows_app. unfold stored_rows at 2. simpl.
  rewrite Hrow. fold (stored_rows header_arr delimiter post).
  split; [done|]. split; [done|].
  rewrite diags_from_app. simpl. apply elem_of_app; right.
  apply elem_of_app; left. unfold line_diag. rewrite Hdata. simpl.
  rewrite (proj2 (Nat.eqb_neq _ _) Hcols). simpl.
  replace (S (length pre + 1)) with (length pre + 2) by lia. left.
Qed.

Lemma mismatched_line_is_discarded_witness :
  let tb := String Py.tab EmptyString in
  let nl := String Py.newline EmptyString in
  let lines := ["1" +:+ tb +:+ "2" +:+ nl; "3" +:+ nl; "4" +:+ tb +:+ "5" +:+ nl] in
  ∃ diags fd,
    FileData.init ["a"; "b"] {| name := "A"; pending := lines |} tb
    = (diags, Ok fd)
    ∧ FileData.data_arr fd
      = [ {[ "a" := "1"; "b" := "2" ]}; {[ "a" := "4"; "b" := "5" ]} ]
    ∧ InconsistentColumns "A" 3 1 2 ∈ diags.
Proof.
  intros tb nl lines.
  destruct (mismatched_line_is_discarded ["a"; "b"]
              {| name := "A"; pending := lines |} tb
              ["1" +:+ tb +:+ "2" +:+ nl] ("3" +:+ nl)
              ["4" +:+ tb +:+ "5" +:+ nl])
    as (diags & fd & _ & _ & Hinit & _ & _ & Hrows & Hdiag).
  - discriminate.
  - repeat constructor; discriminate.
  - reflexivity.
  - reflexivity.
  - vm_compute. lia.
  - exists diags, fd. split; [exact Hinit|]. split; [|exact Hdiag].
    rewrite Hrows. vm_compute. reflexivity.
Defined.

(** C8. A canonical column that a stored row does not have is rendered as the
    null value, at that column's position in the output record (after the
    file path when one is put in front). *)
Theorem missing_column_is_null_value
    (fd : FileData.t) (ordered_array : list string) (null_value : string)
    (output_file_name : bool) (i : nat) (row : gmap string string)
    (j : nat) (column_id : string) :
  FileData.data_arr fd !! i = Some row →
  ordered_array !! j = Some column_id →
  row !! column_id = None →
  ∃ record,
    FileData.get_ordered_output_array fd ordered_array null_value
      output_file_name !! i = Some record
    ∧ length record
      = (if output_file_name then 1 else 0) + length ordered_array
    ∧ record !! ((if output_file_name then 1 else 0) + j) = Some null_value.
Proof.
  intros Hrow Hcol Hmiss.
  exists (FileData.ordered_record fd ordered_array null_value output_file_name row).
  unfold FileData.get_ordered_output_array. rewrite list_lookup_fmap, Hrow.
  split; [done|]. unfold FileData.ordered_record.
  split.
  - rewrite length_app, length_fmap. by destruct output_file_name.
  - rewrite lookup_app_r by (destruct output_file_name; simpl; lia).
    replace ((if output_file_name then 1 else 0) + j
             - length (if output_file_name then [FileData.file_name fd] else []))
      with j by (destruct output_file_name; simpl; lia).
    by rewrite list_lookup_fmap, Hcol; simpl; rewrite Hmiss.
Qed.

Lemma missing_column_is_null_value_witness :
  let row : gmap string string := {[ "name" := "Bob"; "score" := "99" ]} in
  let fd := {| FileData.file_name := "B";
               FileData.header_arr := ["name"; "score"];
               FileData.header_length := 2; FileData.delimiter := TAB;
               FileData.data_arr := [row] |} in
  ∃ record,
    FileData.get_ordered_output_array fd ["id"; "name"; "score"] "None" true
      !! 0 = Some record
    ∧ length record = 4
    ∧ record !! 1 = Some "None".
Proof.
  intros row fd.
  apply (missing_column_is_null_value fd ["id"; "name"; "score"] "None" true
           0 row 0 "id"); reflexivity.
Defined.

(** ** Assembling the table *)

Section transpose_facts.
Context {A : Type}.
Implicit Types (rows : list (list A)) (r : list A).

Lemma column_length rows j :
  Forall (λ r, j < length r) rows →
  length (omap (λ r : list A, r !! j) rows) = length rows.
Proof.
  induction 1 as [|r rows Hr _ IH]; simpl; [done|].
  apply lookup_lt_is_Some_2 in Hr as [x ->]. simpl. f_equal. exact IH.
Qed.

Lemma column_lookup rows j i :
  Forall (λ r, j < length r) rows →
  omap (λ r : list A, r !! j) rows !! i = rows !! i ≫= (λ r, r !! j).
Proof.
  intros Hrows. revert i. induction Hrows as [|r rows Hr _ IH]; intros i.
  - done.
  - simpl. apply lookup_lt_is_Some_2 in Hr as [x Hx]. rewrite Hx. simpl.
    destruct i as [|i]; simpl; [done | apply IH].
Qed.

Lemma min_length_rect ncols rows r :
  Forall (λ r', length r' = ncols) rows → length r = ncols →
  foldr (λ r' n, Nat.min (length r') n) (length r) rows = ncols.
Proof.
  intros Hrows Hr. induction Hrows as [|r' rows Hr' _ IH]; simpl; [done|].
  rewrite IH, Hr'. lia.
Qed.

(** [zip] of the rows of a rectangular matrix is its transpose. *)
Lemma zip_star_rect ncols rows :
  rows ≠ [] → Forall (λ r, length r = ncols) rows →
  length (Py.zip_star rows) = ncols
  ∧ Forall (λ c, length c = length rows) (Py.zip_star rows)
  ∧ ∀ i j, Py.zip_star rows !! j ≫= (λ c, c !! i)
           = rows !! i ≫= (λ r, r !! j).
Proof.
  intros Hne Hrect. destruct rows as [|r rows]; [done|].
  unfold Py.zip_star.
  apply Forall_cons in Hrect as Hrect'. destruct Hrect' as [Hr Hrows].
  rewrite (min_length_rect ncols) by done.
  assert (Hlt : ∀ j, j < ncols → Forall (λ r', j < length r') (r :: rows)).
  { intros j Hj. eapply Forall_impl; [exact Hrect|]. simpl. intros; lia. }
  split; [by rewrite length_fmap, length_seq|]. split.
  - apply Forall_fmap, Forall_forall. intros j Hj.
    apply elem_of_seq in Hj. apply (column_length (r :: rows)), Hlt. lia.
  - intros i j. rewrite list_lookup_fmap.
    destruct (decide (j < ncols)) as [Hj|Hj].
    + rewrite lookup_seq_lt by done.
      apply (column_lookup (r :: rows)), Hlt, Hj.
    + rewrite lookup_seq_ge by lia. cbn [fmap option_fmap option_map mbind option_bind].
      destruct ((r :: rows) !! i) as [r'|] eqn:E; simpl; [|done].
      symmetry. apply lookup_ge_None.
      assert (length r' = ncols); [|lia].
      eapply (proj1 (Forall_forall _ _) Hrect), list_elem_of_lookup_2, E.
Qed.

End transpose_facts.

Section file_handler_facts.
Import FileHandler.
Implicit Types (self : FileHandler.t) (fd : FileData.t)
  (final names : list string) (null_value : string) (output_file_name : bool).

Lemma set_final_header_again hm :
  HeaderMapper.header_order_final hm = [] →
  HeaderMapper.header_order_final (HeaderMapper.set_final_header hm) = [] →
  HeaderMapper.set_final_header (HeaderMapper.set_final_header hm)
  = HeaderMapper.set_final_header hm.
Proof.
  intros E E'. unfold HeaderMapper.set_final_header at 1.
  rewrite E'. unfold HeaderMapper.set_final_header. simpl. by rewrite E.
Qed.

Lemma get_header_again hm :
  HeaderMapper.get_header (HeaderMapper.get_header hm).2
  = HeaderMapper.get_header hm.
Proof.
  unfold HeaderMapper.get_header.
  destruct (HeaderMapper.header_order_final hm) as [|x l] eqn:E;
    cbn [fst snd].
  - destruct (HeaderMapper.header_order_final
                (HeaderMapper.set_final_header hm)) as [|y l'] eqn:E'.
    + by rewrite set_final_header_again, E'.
    + by rewrite E'.
  - rewrite E. by rewrite E.
Qed.

Lemma ordered_records_length fd final null_value output_file_name :
  Forall (λ r, length r = (if output_file_name then 1 else 0) + length final)
    (FileData.get_ordered_output_array fd final null_value output_file_name).
Proof.
  unfold FileData.get_ordered_output_array, FileData.ordered_record.
  apply Forall_fmap, Forall_forall. intros row _. simpl.
  rewrite length_app, length_fmap. by destruct output_file_name.
Qed.

Lemma output_rows_ok self final null_value output_file_name names acc out l :
  output_rows self final null_value output_file_name names acc = (l, Ok out) →
  l = []
  ∧ out = acc ++ concat (block_of self final null_value output_file_name
                           <$> names).
Proof.
  revert acc; induction names as [|p names IH]; intros acc.
  - simpl. intros [= <- <-]. by rewrite app_nil_r.
  - cbn [output_rows]. rewrite fmap_cons. cbn [concat]. unfold block_of at 1.
    destruct (file_data_mapping self !! p) as [fd|]; [|done].
    intros H. apply IH in H as [-> ->]. by rewrite <- app_assoc.
Qed.

Lemma output_rows_total self final null_value output_file_name names acc :
  Forall (λ p, is_Some (file_data_mapping self !! p)) names →
  ∃ out, output_rows self final null_value output_file_name names acc
         = ([], Ok out).
Proof.
  intros Hnames. revert acc.
  induction Hnames as [|p names [fd Hp] _ IH]; intros acc; simpl.
  - by eexists.
  - rewrite Hp. apply IH.
Qed.

(** The shape of a successful [get_output_array]. *)
Lemma get_output_array_ok self null_value output_file_name l array self' :
  get_output_array self null_value output_file_name = (l, Ok (array, self')) →
  let final := (HeaderMapper.get_header (header_mapping self)).1 in
  l = []
  ∧ array = (if output_file_name then "file_path" :: final else final)
            :: concat (block_of self final null_value output_file_name
                         <$> file_name_arr self)
  ∧ self' = {| delimiter := delimiter self;
               file_name_arr := file_name_arr self;
               file_data_mapping := file_data_mapping self;
               header_mapping :=
                 (HeaderMapper.get_header (header_mapping self)).2 |}.
Proof.
  unfold get_output_array.
  destruct (HeaderMapper.get_header (header_mapping self)) as [final hm] eqn:E.
  simpl.
  match goal with
  | |- context [output_rows ?s ?f ?n ?o ?ns ?a] =>
      destruct (output_rows s f n o ns a) as [l0 [out|e]] eqn:Eo
  end; [|done].
  apply output_rows_ok in Eo as [-> Eout]. rewrite bind_ok. simpl.
  intros [= <- <- <-]. split; [done|]. split; [|done].
  rewrite Eout. unfold block_of; simpl. by destruct output_file_name.
Qed.

(** *** Ingestion *)

Lemma open_file_name fs p : name (open_file fs p) = p.
Proof. unfold open_file. by destruct (decide _). Qed.

Lemma open_file_nonempty fs p :
  Forall (λ line, line ≠ EmptyString) (pending (open_file fs p)).
Proof.
  unfold open_file. destruct (decide _); apply file_lines_nonempty.
Qed.

Lemma read_header_loop_ok header_string lines l hs rest :
  read_header_loop header_string lines = (l, Ok (hs, rest)) →
  l = [] ∧ hs ≠ EmptyString ∧ ∃ pre, lines = pre ++ rest.
Proof.
  revert header_string.
  induction lines as [|raw lines IH]; intros header_string.
  - destruct header_string; simpl; [done|].
    intros [= <- <- <-]. split; [done|]. split; [done|]. by exists [].
  - destruct header_string; cbn [read_header_loop].
    + destruct (Py.rstrip raw) as [|c line]; [done|].
      destruct (_ || _); intros H; apply IH in H as (-> & ? & pre & ->);
        (split; [done|]; split; [done|]; by exists (raw :: pre)).
    + intros [= <- <- <-]. split; [done|]. split; [done|]. by exists [].
Qed.

Lemma read_header_ok self f l hdr f' :
  read_header self f = (l, Ok (hdr, f')) →
  l = [] ∧ delimiter self ≠ EmptyString ∧ name f' = name f
  ∧ (∃ pre, pending f = pre ++ pending f')
  ∧ ∃ h, hdr = Header h.
Proof.
  unfold read_header.
  destruct (read_header_loop EmptyString (pending f)) as [l0 [[hs rest]|e]] eqn:E;
    [|done].
  apply read_header_loop_ok in E as (-> & Hhs & pre & Hpre).
  rewrite bind_ok. cbn [fst snd]. destruct hs as [|c hs]; [done|].
  unfold split. destruct (delimiter self) as [|c0 d0]; [done|].
  rewrite bind_ret. intros [= <- <- <-]. simpl.
  repeat split; try done; by eexists.
Qed.

Lemma read_header_delimiter self f :
  read_header self f = read_header (init (delimiter self)) f.
Proof. done. Qed.

(** The shape of a successful [add_file]. *)
Lemma add_file_ok fs self p l self' :
  add_file fs self p = (l, Ok self') →
  ∃ hl,
    header_and_lines fs (delimiter self) p = Some hl
    ∧ self' = {| delimiter := delimiter self;
                 file_name_arr := file_name_arr self ++ [p];
                 file_data_mapping :=
                   <[p := file_data p (delimiter self) hl]>
                     (file_data_mapping self);
                 header_mapping :=
                   HeaderMapper.add_header_arr (header_mapping self) hl.1 |}.
Proof.
  unfold add_file, header_and_lines. rewrite (read_header_delimiter self).
  destruct (read_header (init (delimiter self)) (open_file fs p))
    as [l0 [[hdr f']|e]] eqn:E; [|done].
  apply read_header_ok in E as (-> & Hd & Hname & [pre Hpre] & [h ->]).
  simpl in Hd. rewrite bind_ok. cbn [fst snd].
  assert (Hlines : Forall (λ line, line ≠ EmptyString) (pending f')).
  { pose proof (open_file_nonempty fs p) as Hall. rewrite Hpre in Hall.
    by apply Forall_app in Hall as [_ ?]. }
  destruct h as [|x h]; cbn [falsy].
  - unfold log. rewrite bind_ok. cbn [fst snd]. rewrite init_spec by done.
    rewrite bind_ok. cbn [fst snd ret]. intros [= <- <-].
    exists ([], pending f'). split; [done|].
    unfold file_data. simpl. by rewrite Hname, open_file_name.
  - rewrite bind_ret, init_spec by done.
    rewrite bind_ok. cbn [fst snd ret]. intros [= <- <-].
    exists (x :: h, pending f'). split; [done|].
    unfold file_data. simpl. by rewrite Hname, open_file_name.
Qed.

Lemma last_call_cons fs q calls p :
  last_call ((fs, q) :: calls) p
  = match last_call calls p with
    | Some fs' => Some fs'
    | None => if decide (q = p) then Some fs else None
    end.
Proof.
  unfold last_call. rewrite filter_cons. simpl.
  destruct (decide (q = p)) as [->|Hne]; [|by destruct (last _)].
  rewrite last_cons. by destruct (last _).
Qed.

Lemma last_call_elem calls p :
  p ∈ calls.*2 → ∃ fs, last_call calls p = Some fs ∧ (fs, p) ∈ calls.
Proof.
  intros Hp. apply list_elem_of_fmap in Hp as ([fs q] & -> & Hc).
  unfold last_call. cbn [snd].
  destruct (last (filter (λ c : file_system * string, c.2 = q) calls))
    as [[fs1 q1]|] eqn:El.
  - apply last_Some_elem_of, list_elem_of_filter in El as [Hq Hin].
    simpl in Hq; subst. exists fs1. by split.
  - apply last_None in El.
    assert (Hin : (fs, q) ∈ filter (λ c : file_system * string, c.2 = q) calls)
      by (by apply list_elem_of_filter).
    rewrite El in Hin. by apply elem_of_nil in Hin.
Qed.

(** The state after a successful run of calls. *)
Lemma add_files_ok calls self l self' :
  add_files self calls = (l, Ok self') →
  delimiter self' = delimiter self
  ∧ file_name_arr self' = file_name_arr self ++ calls.*2
  ∧ (∀ p, file_data_mapping self' !! p
          = match last_call calls p with
            | Some fs => loaded fs (delimiter self) p
            | None => file_data_mapping self !! p
            end)
  ∧ Forall (λ c, is_Some (header_and_lines c.1 (delimiter self) c.2)) calls
  ∧ header_mapping self'
    = foldl HeaderMapper.add_header_arr (header_mapping self)
        (call_headers calls (delimiter self)).
Proof.
  revert self l self'.
  induction calls as [|[fs q] calls IH]; intros self l self'.
  - simpl. intros [= <- <-]. by rewrite app_nil_r.
  - cbn [add_files].
    destruct (add_file fs self q) as [l1 [self1|e]] eqn:E1; [|done].
    apply add_file_ok in E1 as (hl & Hhl & ->).
    rewrite bind_ok. cbn [fst snd].
    destruct (add_files _ calls) as [l2 [self2|e]] eqn:E2; [|done].
    apply IH in E2 as (Hd & Hn & Hm & Hall & Hhm). simpl in *.
    intros [= <- <-]. split; [done|]. split; [by rewrite Hn, <- app_assoc|].
    split; [|split].
    + intros p. rewrite Hm, last_call_cons.
      destruct (last_call calls p); [done|].
      destruct (decide (q = p)) as [->|Hne].
      * rewrite lookup_insert_eq. unfold loaded. by rewrite Hhl.
      * by rewrite lookup_insert_ne.
    + constructor; [simpl; by rewrite Hhl | done].
    + rewrite Hhm. unfold call_headers. simpl. by rewrite Hhl.
Qed.

Lemma get_output_array_total self null_value output_file_name :
  Forall (λ p, is_Some (file_data_mapping self !! p)) (file_name_arr self) →
  ∃ array self',
    get_output_array self null_value output_file_name
    = ([], Ok (array, self')).
Proof.
  intros Hnames. unfold get_output_array.
  destruct (HeaderMapper.get_header (header_mapping self)) as [final hm].
  match goal with
  | |- context [output_rows ?s ?f ?n ?o ?ns ?a] =>
      destruct (output_rows_total s f n o ns a) as [out Hout]; [done|]
  end.
  rewrite Hout, bind_ok. by do 2 eexists.
Qed.

Lemma output_after_add_files calls delim l self null_value output_file_name :
  add_files (init delim) calls = (l, Ok self) →
  let final := (HeaderMapper.get_header (header_mapping self)).1 in
  ∃ self',
    get_output_array self null_value output_file_name
    = ([], Ok ((if output_file_name then "file_path" :: final else final)
               :: concat ((λ p, row_block (last_call calls p) delim final
                                  null_value output_file_name p)
                            <$> calls.*2),
               self')).
Proof.
  intros Hrun final. apply add_files_ok in Hrun as (Hd & Hn & Hm & Hall & _).
  simpl in Hd, Hn, Hm, Hall.
  assert (Hloaded : ∀ p, p ∈ calls.*2 →
    ∃ fs, last_call calls p = Some fs ∧ is_Some (loaded fs delim p)).
  { intros p Hp. destruct (last_call_elem _ _ Hp) as (fs & Hfs & Hin).
    exists fs. split; [done|].
    apply (proj1 (Forall_forall _ _) Hall) in Hin as [hl Hhl]. simpl in Hhl.
    unfold loaded. rewrite Hhl. by eexists. }
  destruct (get_output_array_total self null_value output_file_name)
    as (array & self' & Hget).
  { rewrite Hn. apply Forall_forall. intros p Hp. rewrite Hm.
    by destruct (Hloaded p Hp) as (fs & -> & ?). }
  exists self'. rewrite Hget.
  apply get_output_array_ok in Hget as (_ & -> & _). fold final.
  do 4 f_equal. rewrite Hn. f_equal. apply list_fmap_ext. intros i p Hp.
  unfold block_of, row_block. rewrite Hm.
  destruct (Hloaded p) as (fs & -> & _); [|done].
  by eapply list_elem_of_lookup_2.
Qed.

(** Ingestion returns whenever every file has a header line (and the
    delimiter is not empty, which [header_and_lines] checks). *)
Lemma add_file_total fs self p hl :
  header_and_lines fs (delimiter self) p = Some hl →
  ∃ l self', add_file fs self p = (l, Ok self').
Proof.
  unfold header_and_lines, add_file. rewrite (read_header_delimiter self).
  destruct (read_header (init (delimiter self)) (open_file fs p))
    as [l0 [[hdr f']|e]] eqn:E; [|done].
  pose proof (read_header_ok _ _ _ _ _ E) as (-> & Hd & _ & [pre Hpre] & [h ->]).
  simpl in Hd. intros _. rewrite bind_ok. cbn [fst snd].
  assert (Hlines : Forall (λ line, line ≠ EmptyString) (pending f')).
  { pose proof (open_file_nonempty fs p) as Hall. rewrite Hpre in Hall.
    by apply Forall_app in Hall as [_ ?]. }
  destruct h as [|x h]; cbn [falsy].
  - unfold log. rewrite bind_ok. cbn [fst snd]. rewrite init_spec by done.
    rewrite bind_ok. by do 2 eexists.
  - rewrite bind_ret, init_spec by done. rewrite bind_ok. by do 2 eexists.
Qed.

Lemma add_files_total calls self :
  Forall (λ c, is_Some (header_and_lines c.1 (delimiter self) c.2)) calls →
  ∃ l self', add_files self calls = (l, Ok self').
Proof.
  intros Hcalls. revert self Hcalls.
  induction calls as [|[fs q] calls IH]; intros self Hcalls.
  - by do 2 eexists.
  - apply Forall_cons in Hcalls as [[hl Hhl] Hcalls]. cbn [add_files].
    destruct (add_file_total fs self q hl Hhl) as (l1 & self1 & E1).
    rewrite E1, bind_ok. cbn [fst snd].
    pose proof (add_file_ok _ _ _ _ _ E1) as (hl' & _ & Hself1).
    destruct (IH self1) as (l2 & self2 & E2).
    { by rewrite Hself1. }
    rewrite E2. by do 2 eexists.
Qed.

Lemma call_headers_static fs delim (files : list string) :
  call_headers ((λ p, (fs, p)) <$> files) delim
  = omap (λ p, fst <$> header_and_lines fs delim p) files.
Proof.
  unfold call_headers. induction files as [|p files IH]; [done|].
  rewrite fmap_cons. cbn [omap list_omap fst snd].
  destruct (header_and_lines fs delim p); cbn [fmap option_fmap option_map];
    [f_equal|]; exact IH.
Qed.

Lemma canonical_after_add_files calls delim l self :
  add_files (init delim) calls = (l, Ok self) →
  (HeaderMapper.get_header (header_mapping self)).1
  = canonical_header (call_headers calls delim).
Proof.
  intros Hrun. apply add_files_ok in Hrun as (_ & _ & _ & _ & Hhm).
  by rewrite Hhm.
Qed.

(** The main body returns a table whenever every file has a header line. *)
Lemma run_total fs delim na_value output_file_name (transpose : bool)
    (files : list string) :
  Forall (λ p, is_Some (header_and_lines fs delim p)) files →
  ∃ l out, run fs delim na_value output_file_name transpose files = (l, Ok out).
Proof.
  intros Hfiles. unfold run.
  destruct (add_files_total ((λ p, (fs, p)) <$> files) (init delim))
    as (l & self & Eadd).
  { apply Forall_fmap. eapply Forall_impl; [exact Hfiles|]. done. }
  rewrite Eadd, bind_ok. cbn [fst snd].
  destruct (output_after_add_files _ _ _ _ na_value output_file_name Eadd)
    as [self' Hget].
  destruct transpose.
  - unfold get_output_array_transposed. rewrite Hget, !bind_ok.
    by do 2 eexists.
  - rewrite Hget, bind_ok. by do 2 eexists.
Qed.

(** *** Files without a header line *)

Lemma rstrip_blank raw : blank raw = true → Py.rstrip raw = EmptyString.
Proof.
  unfold blank, Py.rstrip. induction raw as [|c raw IH]; simpl; [done|].
  intros [Hc Hraw]%andb_true_iff. by rewrite IH, Hc.
Qed.

Lemma rstrip_comment raw :
  starts_with_hash raw = true →
  ∃ line, Py.rstrip raw = String Py.hash line.
Proof.
  destruct raw as [|c raw]; simpl; [done|].
  intros ->%Ascii.eqb_eq. unfold Py.rstrip. simpl.
  destruct (Py.rstrip_chars Py.is_whitespace raw); by eexists.
Qed.

Lemma read_header_loop_no_header lines :
  forallb no_header_line lines = true →
  ∃ e, read_header_loop EmptyString lines = ([], Raise e)
       ∧ (e = StopIteration ∨ e = IndexError).
Proof.
  induction lines as [|raw lines IH]; simpl.
  - intros _. exists StopIteration. split; [done | by left].
  - intros [Hraw Hlines]%andb_true_iff. unfold no_header_line in Hraw.
    destruct (blank raw) eqn:Eb.
    + rewrite rstrip_blank by done. exists IndexError. split; [done | by right].
    + simpl in Hraw. destruct (rstrip_comment raw Hraw) as [line ->].
      rewrite Ascii.eqb_refl. simpl. by apply IH.
Qed.

End file_handler_facts.

(** C7. Whenever [get_output_array] returns a table, the transposed call
    on the same handler (before or after that call) returns its exact
    transpose: every row of the table has the same length [ncols], the
    transposed table has [ncols] rows, each as long as the table has rows, and
    cell [(j, i)] of the transposed table is cell [(i, j)] of the table. *)
Theorem transposed_table_is_transpose
    (self : FileHandler.t) (null_value : string) (output_file_name : bool)
    (l : list diag) (array : list (list string)) (self' : FileHandler.t) :
  FileHandler.get_output_array self null_value output_file_name
  = (l, Ok (array, self')) →
  ∃ T ncols,
    FileHandler.get_output_array_transposed self null_value output_file_name
    = (l, Ok (T, self'))
    ∧ FileHandler.get_output_array_transposed self' null_value
        output_file_name = (l, Ok (T, self'))
    ∧ Forall (λ r, length r = ncols) array
    ∧ length T = ncols
    ∧ Forall (λ c, length c = length array) T
    ∧ ∀ i j, T !! j ≫= (λ c, c !! i) = array !! i ≫= (λ r, r !! j).
Proof.
  intros Hget.
  pose proof (get_output_array_ok _ _ _ _ _ _ Hget) as (-> & Harr & Hself).
  set (final := (HeaderMapper.get_header (FileHandler.header_mapping self)).1)
    in *.
  set (ncols := (if output_file_name then 1 else 0) + length final).
  assert (Hrect : Forall (λ r, length r = ncols) array).
  { rewrite Harr. constructor.
    - subst ncols. by destruct output_file_name.
    - apply Forall_concat, Forall_fmap, Forall_forall. intros p _. simpl.
      unfold block_of. destruct (FileHandler.file_data_mapping self !! p).
      + apply ordered_records_length.
      + constructor. }
  assert (Hne : array ≠ []) by (by rewrite Harr).
  destruct (zip_star_rect ncols array Hne Hrect) as (Hlen & Hcols & Hcells).
  assert (Hagain : FileHandler.get_output_array self' null_value
                     output_file_name = ([], Ok (array, self'))).
  { rewrite <- Hget. rewrite Hself at 1.
    unfold FileHandler.get_output_array. cbn [FileHandler.header_mapping].
    rewrite get_header_again.
    by destruct (HeaderMapper.get_header (FileHandler.header_mapping self)). }
  exists (Py.zip_star array), ncols.
  unfold FileHandler.get_output_array_transposed.
  rewrite Hget, Hagain, bind_ok. done.
Qed.

Lemma transposed_table_is_transpose_witness :
  ∃ l self array self' T,
    FileHandler.add_files (FileHandler.init TAB)
      [(reports, "A"); (reports, "B")] = (l, Ok self)
    ∧ FileHandler.get_output_array self "None" true = ([], Ok (array, self'))
    ∧ FileHandler.get_output_array_transposed self "None" true
      = ([], Ok (T, self'))
    ∧ array = [["file_path"; "id"; "name"; "score"];
               ["A"; "1"; "Alice"; "None"];
               ["B"; "None"; "Bob"; "99"]]
    ∧ length T = 4
    ∧ ∀ i j, T !! j ≫= (λ c, c !! i) = array !! i ≫= (λ r, r !! j).
Proof.
  destruct (FileHandler.add_files (FileHandler.init TAB)
              [(reports, "A"); (reports, "B")]) as [l [self|e]] eqn:Eadd;
    [|vm_compute in Eadd; discriminate].
  destruct (FileHandler.get_output_array self "None" true)
    as [l' [[array self']|e]] eqn:Eget.
  - destruct (transposed_table_is_transpose self "None" true l' array self' Eget)
      as (T & ncols & HT & _ & Hrect & Hlen & _ & Hcells).
    assert (Harr : l' = [] ∧ array = [["file_path"; "id"; "name"; "score"];
                                      ["A"; "1"; "Alice"; "None"];
                                      ["B"; "None"; "Bob"; "99"]]).
    { vm_compute in Eadd. injection Eadd as _ <-.
      vm_compute in Eget. injection Eget as <- <- _. done. }
    destruct Harr as [-> Harr].
    exists l, self, array, self', T.
    split; [done|]. split; [done|]. split; [exact HT|]. split; [exact Harr|].
    split; [|exact Hcells].
    rewrite Hlen. rewrite Harr in Hrect. by inversion Hrect.
  - vm_compute in Eadd. injection Eadd as _ <-.
    vm_compute in Eget. discriminate.
Defined.

(** C9. The data rows of the table built by the main body are the blocks of
    the files in the order the files were given; the block of a file holds one
    record for every stored row of the file, in the order of the file's lines
    after its header. *)
Theorem rows_follow_file_and_line_order
    (fs : file_system) (delim na_value : string) (output_file_name : bool)
    (files : list string) (l : list diag) (out : list (list string)) :
  run fs delim na_value output_file_name false files = (l, Ok out) →
  let final :=
    canonical_header (omap (λ p, fst <$> header_and_lines fs delim p) files) in
  out = (if output_file_name then "file_path" :: final else final)
        :: concat (file_rows fs delim final na_value output_file_name
                     <$> files).
Proof.
  unfold run. intros Hrun. set (final := canonical_header _).
  destruct (FileHandler.add_files _ _) as [l1 [self|e]] eqn:Eadd; [|done].
  rewrite bind_ok in Hrun. cbn [fst snd] in Hrun.
  pose proof (canonical_after_add_files _ _ _ _ Eadd) as Hfinal.
  destruct (output_after_add_files _ _ _ _ na_value output_file_name Eadd)
    as [self' Hget].
  rewrite Hfinal, call_headers_static in Hget. fold final in Hget.
  rewrite Hget, bind_ok in Hrun. cbn [fst snd ret] in Hrun.
  injection Hrun as _ <-. f_equal. f_equal.
  rewrite <- list_fmap_compose. rewrite <- list_fmap_compose.
  apply list_fmap_ext. intros i p Hp. simpl.
  assert (Hlast : last_call ((λ p, (fs, p)) <$> files) p = Some fs).
  { destruct (last_call_elem ((λ p, (fs, p)) <$> files) p) as (fs' & Hl & Hin).
    - rewrite <- list_fmap_compose. simpl.
      apply list_elem_of_fmap. exists p. split; [done|].
      by eapply list_elem_of_lookup_2.
    - apply list_elem_of_fmap in Hin as (q & [= -> ->] & _). done. }
  unfold row_block, file_rows. rewrite Hlast. simpl. unfold loaded.
  destruct (header_and_lines fs delim p) as [[h rest]|]; [|done].
  done.
Qed.

Lemma rows_follow_file_and_line_order_witness :
  ∃ l, run reports TAB DEFAULT_NA_VALUE false false ["A"; "B"; "A"]
       = (l, Ok [["id"; "name"; "score"];
                 ["1"; "Alice"; "None"];
                 ["None"; "Bob"; "99"];
                 ["1"; "Alice"; "None"]]).
Proof.
  destruct (run reports TAB DEFAULT_NA_VALUE false false ["A"; "B"; "A"])
    as [l [out|e]] eqn:Erun; [|vm_compute in Erun; discriminate].
  exists l.
  rewrite (rows_follow_file_and_line_order reports TAB DEFAULT_NA_VALUE false
             ["A"; "B"; "A"] l out Erun).
  vm_compute. reflexivity.
Defined.

(** C10. The handler keeps one store per path, replaced at every call on the
    path, and one entry of the name list per call.  Each call on a path
    therefore contributes to the table the rows of the last call on that
    path: a path given [k] times contributes [k] copies of the block read at
    its last ingestion, and no row read at an earlier one. *)
Theorem repeated_path_contributes_last_ingestion
    (calls : list (file_system * string)) (delim : string) (l : list diag)
    (self : FileHandler.t) (null_value : string) (output_file_name : bool) :
  FileHandler.add_files (FileHandler.init delim) calls = (l, Ok self) →
  let final := canonical_header (call_headers calls delim) in
  FileHandler.file_name_arr self = calls.*2
  ∧ (∀ p, FileHandler.file_data_mapping self !! p
          = last_call calls p ≫= (λ fs, loaded fs delim p))
  ∧ ∃ self',
      FileHandler.get_output_array self null_value output_file_name
      = ([], Ok ((if output_file_name then "file_path" :: final else final)
                 :: concat ((λ p, row_block (last_call calls p) delim final
                                    null_value output_file_name p)
                              <$> calls.*2),
                 self')).
Proof.
  intros Hrun final.
  pose proof (add_files_ok _ _ _ _ Hrun) as (_ & Hn & Hm & _ & _).
  simpl in Hn, Hm. split; [done|]. split.
  - intros p. rewrite Hm. destruct (last_call calls p); [done|].
    by rewrite lookup_empty.
  - subst final. rewrite <- (canonical_after_add_files _ _ _ _ Hrun).
    exact (output_after_add_files _ _ _ _ null_value output_file_name Hrun).
Qed.

Lemma repeated_path_contributes_last_ingestion_witness :
  ∃ l self self',
    FileHandler.add_files (FileHandler.init TAB)
      [(before_edit, "A"); (after_edit, "A")] = (l, Ok self)
    ∧ FileHandler.file_name_arr self = ["A"; "A"]
    ∧ FileHandler.get_output_array self "None" false
      = ([], Ok ([["x"]; ["2"]; ["3"]; ["2"]; ["3"]], self')).
Proof.
  destruct (FileHandler.add_files (FileHandler.init TAB)
              [(before_edit, "A"); (after_edit, "A")])
    as [l [self|e]] eqn:Eadd; [|vm_compute in Eadd; discriminate].
  destruct (repeated_path_contributes_last_ingestion _ _ _ _ "None" false Eadd)
    as (Hnames & _ & self' & Hget).
  exists l, self, self'. split; [done|]. split; [exact Hnames|].
  rewrite Hget. vm_compute. reflexivity.
Defined.

(** ** Files that have no header line, and blank lines before the header *)

(** C2 fails on the code: for every file made only of blank and comment
    lines, the empty file among them, [add_file] raises ([StopIteration] at
    the end of the file, [IndexError] at a blank line) and logs nothing. *)
Theorem file_without_header_line_raises
    (fs : file_system) (self : FileHandler.t) (p : string) :
  forallb no_header_line (pending (FileHandler.open_file fs p)) = true →
  ∃ e, FileHandler.add_file fs self p = ([], Raise e)
       ∧ (e = StopIteration ∨ e = IndexError).
Proof.
  intros Hlines.
  destruct (read_header_loop_no_header _ Hlines) as (e & Hloop & He).
  exists e. split; [|done].
  unfold FileHandler.add_file, FileHandler.read_header. by rewrite Hloop.
Qed.

Lemma file_without_header_line_raises_witness :
  ∃ e, FileHandler.add_file reports (FileHandler.init TAB) "E" = ([], Raise e)
       ∧ (e = StopIteration ∨ e = IndexError).
Proof.
  apply (file_without_header_line_raises reports (FileHandler.init TAB) "E").
  reflexivity.
Defined.

(** The run on the reports [A], the empty file [E] and [B] ends at [E]. *)
Example empty_file_ends_the_run :
  run reports TAB DEFAULT_NA_VALUE false false ["A"; "E"; "B"]
  = ([], Raise StopIteration).
Proof. vm_compute. reflexivity. Qed.

(** C3 fails on the code: a whitespace-only line met before the header, after
    any number of comment lines, makes [add_file] raise [IndexError]. *)
Theorem blank_line_before_header_raises
    (fs : file_system) (self : FileHandler.t) (p : string)
    (comments : list string) (line : string) (rest : list string) :
  pending (FileHandler.open_file fs p) = comments ++ line :: rest →
  forallb starts_with_hash comments = true →
  Py.isspace line = true →
  FileHandler.add_file fs self p = ([], Raise IndexError).
Proof.
  intros Hlines Hcomments Hblank.
  assert (Hloop : FileHandler.read_header_loop EmptyString
                    (comments ++ line :: rest) = ([], Raise IndexError)).
  { clear Hlines. induction comments as [|c comments IH]; simpl.
    - rewrite rstrip_blank; [done|]. destruct line; [done | exact Hblank].
    - simpl in Hcomments. apply andb_true_iff in Hcomments as [Hc Hcs].
      destruct (rstrip_comment c Hc) as [line' ->].
      rewrite Ascii.eqb_refl. simpl. by apply IH. }
  unfold FileHandler.add_file, FileHandler.read_header.
  by rewrite Hlines, Hloop.
Qed.

Lemma blank_line_before_header_raises_witness :
  FileHandler.add_file reports (FileHandler.init TAB) "F"
  = ([], Raise IndexError).
Proof.
  apply (blank_line_before_header_raises reports (FileHandler.init TAB) "F"
           [] NL ["a" +:+ TAB +:+ "b" +:+ NL; "1" +:+ TAB +:+ "2" +:+ NL]);
    reflexivity.
Defined.

(** Blank and comment lines after the header are skipped. *)
Example blank_and_comment_lines_in_data :
  run (files_of [("G", "a" +:+ NL +:+ NL +:+ "#c" +:+ NL +:+ "1" +:+ NL)])
    TAB DEFAULT_NA_VALUE false false ["G"]
  = ([], Ok [["a"]; ["1"]]).
Proof. vm_compute. reflexivity. Qed.

(** ** The canonical header *)

(** C1. The canonical header computed from any sequence of registered headers
    holds exactly the column names that occur in some registered header, and
    holds each of them once. *)
Theorem canonical_header_is_union (headers : list (list string)) :
  NoDup (canonical_header headers)
  ∧ ∀ x, x ∈ canonical_header headers ↔ ∃ h, h ∈ headers ∧ x ∈ h.
Proof.
  rewrite canonical_header_eq. split.
  - apply final_order_NoDup, NoDup_nil_2.
  - intros x. rewrite final_order_elem. split.
    + intros [H|(j & _ & Hx)]; [by apply elem_of_nil in H|].
      rewrite registered_keys, first_seen_elem, names_at_elem in Hx.
      destruct Hx as (h & Hh & Hj). exists h. split; [done|].
      by eapply list_elem_of_lookup_2.
    + intros (h & Hh & Hx). right.
      apply list_elem_of_lookup in Hx as [j Hj]. exists j.
      assert (Hk : x ∈ keys_at (HeaderMapper.header_counts (registered headers)) j).
      { rewrite registered_keys, first_seen_elem, names_at_elem. by exists h. }
      split; [|done]. apply sorted_slots_elem.
      destruct (HeaderMapper.header_counts (registered headers) !! j) eqn:E;
        [done|].
      rewrite (keys_at_missing _ _ E) in Hk. by apply elem_of_nil in Hk.
Qed.

(** C5, as stated, fails when the common header repeats a column name: the
    canonical header keeps one occurrence only. *)
Lemma identical_headers_repeated_name :
  canonical_header (replicate 1 ["a"; "a"]) ≠ ["a"; "a"].
Proof. vm_compute. discriminate. Qed.

(** C5, amended. If every registered header is the same sequence [H] of
    pairwise distinct column names, and at least one header is registered,
    the canonical header is [H] itself, in the same order. *)
Theorem identical_headers_verbatim (H : list string) (n : nat) :
  NoDup H → 1 ≤ n → canonical_header (replicate n H) = H.
Proof.
  intros Hnd Hn. destruct n as [|n]; [lia|].
  rewrite canonical_header_eq.
  rewrite (sorted_slots_seq _ (length H)).
  - rewrite (final_order_columns _ H 0).
    + by rewrite foldl_place_fresh.
    + intros j x Hj. change (0 + j) with j. unfold HeaderMapper.sorted_ids.
      change (Py.od_keys (default [] (?hc !! j))) with (keys_at hc j).
      rewrite registered_keys, names_at_replicate, Hj, first_seen_replicate.
      done.
  - intros j. rewrite registered_dom. split.
    + intros (h & Hh & Hlen). apply elem_of_replicate in Hh as [-> _]. done.
    + intros Hlen. exists H. split; [left | done].
Qed.

Lemma identical_headers_verbatim_witness :
  NoDup ["a"; "b"; "c"] ∧ 1 ≤ 2
  ∧ canonical_header (replicate 2 ["a"; "b"; "c"]) = ["a"; "b"; "c"].
Proof.
  assert (Hnd : NoDup ["a"; "b"; "c"]) by (apply (bool_decide_unpack _); vm_compute; exact I).
  split; [exact Hnd|]. split; [lia|].
  apply (identical_headers_verbatim ["a"; "b"; "c"] 2); [exact Hnd | lia].
Defined.

(** ** Order within a slot *)



(** The end-to-end example of the specification. *)
Example end_to_end_two_reports :
  run reports TAB DEFAULT_NA_VALUE false false ["A"; "B"]
  = ([], Ok [["id"; "name"; "score"];
             ["1"; "Alice"; "None"];
             ["None"; "Bob"; "99"]]).
Proof. vm_compute. reflexivity. Qed.

(** * Further properties of the code *)

(** ** The bookkeeping of [add_header_arr] *)

Section header_mapper_more.
Import HeaderMapper.
Implicit Types (self : HeaderMapper.t) (h : list string) (i j n : nat)
  (x y : string) (hs : list (list string)).

Local Arguments add_column : simpl never.
Local Arguments add_header_arr : simpl never.

Lemma frequency_zero hs j x : frequency hs j x = 0 ↔ x ∉ names_at hs j.
Proof.
  unfold frequency. rewrite length_zero_iff_nil. split.
  - intros Hnil Hin.
    assert (Hf : x ∈ filter (λ y, y = x) (names_at hs j))
      by (by apply list_elem_of_filter).
    rewrite Hnil in Hf. by apply elem_of_nil in Hf.
  - intros Hin. destruct (filter _ _) as [|y l] eqn:E; [done|].
    assert (Hy : y ∈ filter (λ y, y = x) (names_at hs j))
      by (rewrite E; left).
    apply list_elem_of_filter in Hy as [-> ?]. done.
Qed.

(** X1. After any sequence of registrations the count table holds, for every
    slot and name, the number of registered headers that carry the name at
    the slot, and holds no entry for a name never seen at the slot. *)
Theorem count_table_counts_occurrences hs j x :
  Py.od_get x (default [] (header_counts (registered hs) !! j))
  = if decide (frequency hs j x = 0) then None
    else Some (frequency hs j x).
Proof.
  pose proof (foldl_add_count init hs j x) as Hcount.
  pose proof (foldl_add_keys init hs j) as Hkeys.
  fold (registered hs) in Hcount, Hkeys.
  unfold count_at, keys_at in *. simpl in Hcount, Hkeys.
  rewrite lookup_empty in Hcount, Hkeys. simpl in Hcount, Hkeys.
  destruct (decide (frequency hs j x = 0)) as [Hz|Hnz].
  - apply od_get_None. rewrite Hkeys, foldl_place_first_seen, first_seen_elem.
    by apply frequency_zero.
  - destruct (Py.od_get x _) as [c|] eqn:E; simpl in Hcount; [by subst|].
    exfalso. apply Hnz. lia.
Qed.

Lemma add_column_values self i y x :
  default [] (header_values (add_column self (i, y)) !! x)
  = default [] (header_values self !! x) ++ (if decide (y = x) then [i] else [])
  ∧ (is_Some (header_values (add_column self (i, y)) !! x)
     ↔ is_Some (header_values self !! x) ∨ y = x).
Proof.
  unfold add_column; simpl.
  destruct (decide (y = x)) as [->|Hne].
  - rewrite lookup_insert_eq. simpl. split.
    + destruct (header_values self !! x) as [l|] eqn:E; [by rewrite E|].
      by rewrite lookup_insert_eq.
    + split; [by right | by eexists].
  - rewrite lookup_insert_ne by done. rewrite app_nil_r.
    destruct (header_values self !! y);
      rewrite ?lookup_insert_ne by done; split; tauto.
Qed.

Lemma add_columns_values self n h x :
  default [] (header_values (foldl add_column self (Py.enumerate_from n h)) !! x)
  = default [] (header_values self !! x) ++ positions_from n x h
  ∧ (is_Some (header_values (foldl add_column self (Py.enumerate_from n h)) !! x)
     ↔ is_Some (header_values self !! x) ∨ x ∈ h).
Proof.
  revert self n; induction h as [|y h IH]; intros self n.
  - simpl. rewrite app_nil_r. split; [done|].
    split; [by left | intros [?|H]; [done | by apply elem_of_nil in H]].
  - cbn [Py.enumerate_from foldl positions_from].
    destruct (IH (add_column self (n, y)) (S n)) as [-> ->].
    destruct (add_column_values self n y x) as [-> ->].
    split; [by rewrite <- app_assoc|].
    rewrite elem_of_cons. split; [intros [[?| ->]|?] | intros [?|[->|?]]]; tauto.
Qed.

Lemma foldl_add_values self hs x :
  default [] (header_values (foldl add_header_arr self hs) !! x)
  = default [] (header_values self !! x) ++ concat (positions_from 0 x <$> hs)
  ∧ (is_Some (header_values (foldl add_header_arr self hs) !! x)
     ↔ is_Some (header_values self !! x) ∨ ∃ h, h ∈ hs ∧ x ∈ h).
Proof.
  revert self; induction hs as [|h hs IH]; intros self.
  - simpl. rewrite app_nil_r. split; [done|].
    split; [by left | intros [?|(h & Hh & _)]; [done|]].
    by apply elem_of_nil in Hh.
  - cbn [foldl]. rewrite fmap_cons. cbn [concat].
    destruct (IH (add_header_arr self h)) as [-> ->].
    unfold add_header_arr, Py.enumerate.
    destruct (add_columns_values self 0 h x) as [-> ->].
    split; [by rewrite <- app_assoc|]. split.
    + intros [[?|?]|(h' & ? & ?)]; [by left | right; exists h | right; exists h'].
      * split; [left | done].
      * split; [by right | done].
    + intros [?|(h' & Hh & ?)]; [by left; left|].
      apply elem_of_cons in Hh as [ ->|?]; [left; by right|].
      right; by exists h'.
Qed.

(** X2. After any sequence of registrations, [header_values] maps every
    registered name to the slots at which it was seen, header after header in
    registration order and ascending within a header, and has an entry for
    exactly the names that occur in some header. *)
Theorem header_values_lists_positions hs x :
  default [] (header_values (registered hs) !! x)
  = concat (positions_from 0 x <$> hs)
  ∧ (is_Some (header_values (registered hs) !! x) ↔ ∃ h, h ∈ hs ∧ x ∈ h).
Proof.
  destruct (foldl_add_values init hs x) as [Hv Hs].
  fold (registered hs) in Hv, Hs. simpl in Hv, Hs.
  rewrite lookup_empty in Hv, Hs. simpl in Hv. split; [done|].
  rewrite Hs. split; [intros [[? [=]]|?]; done | by right].
Qed.

(** ** The cache of [get_header] *)

(** X3. Once [get_header] has returned a header that is not empty, the
    headers registered afterwards are ignored: every later [get_header]
    returns the same header. *)
Theorem get_header_ignores_later_headers self hs :
  (get_header self).1 ≠ [] →
  (get_header (foldl add_header_arr (get_header self).2 hs)).1
  = (get_header self).1.
Proof.
  intros Hne.
  assert (Hfinal : header_order_final (get_header self).2 = (get_header self).1)
    by done.
  unfold get_header at 1.
  rewrite foldl_add_final, Hfinal.
  destruct ((get_header self).1) as [|x l] eqn:E; [done|].
  cbn [fst]. by rewrite foldl_add_final, Hfinal.
Qed.

Lemma get_header_ignores_later_headers_witness :
  (get_header (registered [["a"]])).1 ≠ []
  ∧ (get_header (foldl add_header_arr (get_header (registered [["a"]])).2
                   [["b"; "c"]])).1 = ["a"].
Proof.
  split; [vm_compute; discriminate|].
  rewrite (get_header_ignores_later_headers (registered [["a"]]) [["b"; "c"]]).
  - vm_compute. reflexivity.
  - vm_compute. discriminate.
Defined.

(** X4. A [get_header] that returns the empty header caches nothing: it
    leaves the mapper as it was, so the headers registered afterwards are
    taken into account by the next call. *)
Theorem empty_header_is_not_cached self hs :
  (get_header self).1 = [] →
  (get_header self).2 = self
  ∧ get_header (foldl add_header_arr (get_header self).2 hs)
    = get_header (foldl add_header_arr self hs).
Proof.
  intros Hempty.
  assert (Hsame : (get_header self).2 = self).
  { unfold get_header in *.
    destruct (header_order_final self) as [|x l] eqn:E; [|done].
    cbn [fst snd] in *. unfold set_final_header in *. cbn in Hempty.
    rewrite Hempty. destruct self. simpl in E. by rewrite E. }
  by rewrite Hsame.
Qed.

Lemma empty_header_is_not_cached_witness :
  (get_header init).1 = []
  ∧ (get_header (foldl add_header_arr (get_header init).2 [["a"; "b"]])).1
    = ["a"; "b"].
Proof.
  split; [reflexivity|].
  destruct (empty_header_is_not_cached init [["a"; "b"]] eq_refl) as [_ ->].
  vm_compute. reflexivity.
Defined.

(** ** [__str__] *)

(** X5. [__str__] returns the empty string when the canonical header is
    empty, and raises [TypeError] as soon as there is a column: its loop adds
    the column number, an [int], to a [str]. *)
Theorem str_raises_on_any_column self :
  __str__ self
  = match (get_header self).1 with
    | [] => ret (EmptyString, (get_header self).2)
    | _ :: _ => raise TypeError
    end.
Proof.
  unfold __str__.
  destruct (get_header self) as [final self'] eqn:E. cbn [fst snd].
  destruct final as [|x final]; reflexivity.
Qed.

(** ** The order of the canonical header *)

Lemma first_seen_constant (l : list string) x :
  l ≠ [] → (∀ y, y ∈ l → y = x) → first_seen l = [x].
Proof.
  intros Hne Hall. destruct l as [|y l]; [done|].
  rewrite (Hall y) by left. simpl. f_equal.
  assert (Hl : ∀ z, z ∈ first_seen l → z = x).
  { intros z Hz. apply Hall. right. by apply first_seen_elem. }
  induction (first_seen l) as [|z l' IH]; [done|].
  rewrite filter_cons_False.
  - apply IH. intros z' Hz'. apply Hl. by right.
  - intros Hz. apply Hz, Hl. left.
Qed.

Lemma sorted_ids_single (hc : gmap nat (Py.odict nat)) j x :
  keys_at hc j = [x] → sorted_ids hc j = [x].
Proof. unfold sorted_ids, keys_at. by intros ->. Qed.

Lemma prefix_headers_slot hs (H : list string) j x :
  H ∈ hs → (∀ h, h ∈ hs → h `prefix_of` H) → H !! j = Some x →
  sorted_ids (header_counts (registered hs)) j = [x].
Proof.
  intros HH Hpre Hj. apply sorted_ids_single.
  pose proof (foldl_add_keys init hs j) as Hkeys.
  fold (registered hs) in Hkeys. rewrite Hkeys.
  unfold keys_at. simpl. rewrite lookup_empty. simpl.
  rewrite foldl_place_first_seen. apply first_seen_constant.
  - intros Hnil.
    assert (Hx : x ∈ names_at hs j) by (apply names_at_elem; by exists H).
    rewrite Hnil in Hx. by apply elem_of_nil in Hx.
  - intros y (h & Hh & Hy)%names_at_elem.
    pose proof (prefix_lookup_Some _ _ _ _ Hy (Hpre h Hh)). congruence.
Qed.

Lemma prefix_headers_slots hs (H : list string) :
  H ∈ hs → (∀ h, h ∈ hs → h `prefix_of` H) →
  sorted_slots (header_counts (registered hs)) = seq 0 (length H).
Proof.
  intros HH Hpre. apply sorted_slots_seq. intros j.
  pose proof (foldl_add_dom init hs j) as Hdom.
  fold (registered hs) in Hdom. rewrite Hdom. simpl.
  rewrite lookup_empty. split.
  - intros [[? [=]]|(h & Hh & Hlen)].
    pose proof (prefix_length _ _ (Hpre h Hh)). lia.
  - intros Hlen. right. by exists H.
Qed.

(** X6. When every registered header is a prefix of one registered header
    [H] (reports that differ only by missing trailing columns), the canonical
    header is [H] with every repeated name kept at its first place; it is [H]
    itself when [H] repeats no name. *)
Theorem headers_that_are_prefixes_of_one hs (H : list string) :
  H ∈ hs → (∀ h, h ∈ hs → h `prefix_of` H) →
  canonical_header hs = first_seen H
  ∧ (NoDup H → canonical_header hs = H).
Proof.
  intros HH Hpre.
  assert (Hcanon : canonical_header hs = foldl place [] H).
  { rewrite canonical_header_eq, (prefix_headers_slots hs H) by done.
    apply (final_order_columns _ H 0). intros j x Hj.
    change (0 + j) with j. by apply (prefix_headers_slot hs H). }
  split.
  - by rewrite Hcanon, foldl_place_first_seen.
  - intros Hnd. by rewrite Hcanon, foldl_place_fresh.
Qed.

Lemma headers_that_are_prefixes_of_one_witness :
  canonical_header [["a"; "b"]; ["a"; "b"; "c"]; ["a"]] = ["a"; "b"; "c"].
Proof.
  assert (Hnd : NoDup ["a"; "b"; "c"])
    by (apply (bool_decide_unpack _); vm_compute; exact I).
  refine (proj2 (headers_that_are_prefixes_of_one
                   [["a"; "b"]; ["a"; "b"; "c"]; ["a"]] ["a"; "b"; "c"] _ _)
            Hnd).
  - apply (bool_decide_unpack _). vm_compute. exact I.
  - intros h Hh.
    repeat (apply elem_of_cons in Hh as [ ->|Hh]);
      [by exists ["c"] | by exists [] | by exists ["b"; "c"] |].
    by apply elem_of_nil in Hh.
Defined.

Lemma final_order_concat hc (final : list string) (slots : list nat) :
  final_order hc final slots
  = foldl place final (concat (sorted_ids hc <$> slots)).
Proof.
  revert final; induction slots as [|i slots IH]; intros final; [done|].
  rewrite fmap_cons. cbn [concat]. rewrite foldl_app, <- IH. done.
Qed.

Lemma max_len_spec hs j : (∃ h, h ∈ hs ∧ j < length h) ↔ j < max_len hs.
Proof.
  induction hs as [|h hs IH]; simpl.
  - split; [intros (h & Hh & _); by apply elem_of_nil in Hh | lia].
  - split.
    + intros (h' & [ ->|Hh]%elem_of_cons & Hlen); [lia|].
      assert (j < max_len hs) by (apply IH; by exists h'). lia.
    + intros Hj. destruct (decide (j < length h)) as [Hlt|Hge].
      * exists h. split; [left | done].
      * assert (Hm : j < max_len hs) by lia.
        apply IH in Hm as (h' & ? & ?). exists h'. split; [by right | done].
Qed.

Lemma registered_slots hs :
  sorted_slots (header_counts (registered hs)) = seq 0 (max_len hs).
Proof.
  apply sorted_slots_seq. intros j.
  pose proof (foldl_add_dom init hs j) as Hdom.
  fold (registered hs) in Hdom. rewrite Hdom, <- max_len_spec. simpl.
  rewrite lookup_empty. split; [intros [[? [=]]|?]; done | by right].
Qed.

(** X7. The canonical header is built slot by slot: it is the sequence of the
    slots' names, slot 0 first, each slot in the order [sorted] gives, with
    every name kept at its first place only.  A name seen at several slots is
    therefore placed by the lowest of them, whatever its frequencies. *)
Theorem canonical_header_first_slot_wins hs :
  canonical_header hs
  = first_seen
      (concat (sorted_ids (header_counts (registered hs))
                 <$> seq 0 (max_len hs))).
Proof.
  rewrite canonical_header_eq, registered_slots, final_order_concat.
  apply foldl_place_first_seen.
Qed.

(** X8. The first column of the canonical header is a name that stands first
    in at least one header, and in at least as many headers as any other
    name does. *)
Theorem first_column_is_most_frequent hs x (rest : list string) :
  canonical_header hs = x :: rest →
  1 ≤ frequency hs 0 x ∧ ∀ y, frequency hs 0 y ≤ frequency hs 0 x.
Proof.
  rewrite canonical_header_eq, registered_slots, final_order_concat.
  set (hc := header_counts (registered hs)).
  destruct (max_len hs) as [|m] eqn:Em; [done|].
  cbn [seq]. rewrite fmap_cons. cbn [concat].
  rewrite foldl_app, !foldl_place_filter. cbn [app].
  assert (Hkey : ∀ y, count_at hc 0 y = frequency hs 0 y).
  { intros y. subst hc. unfold registered. by rewrite foldl_add_count. }
  assert (Hids : ∀ y, y ∈ sorted_ids hc 0 ↔ y ∈ names_at hs 0).
  { intros y. rewrite sorted_ids_elem. subst hc. unfold registered.
    rewrite foldl_add_keys. unfold keys_at. simpl. rewrite lookup_empty.
    simpl. by rewrite foldl_place_first_seen, first_seen_elem. }
  pose proof (sorted_desc_sorted (count_at hc 0)
                (Py.od_keys (default [] (hc !! 0)))) as Hsorted.
  fold (sorted_ids hc 0) in Hsorted.
  destruct (sorted_ids hc 0) as [|z ids] eqn:Eids.
  - (* slot 0 carries a name as soon as some header is not empty *)
    exfalso.
    assert (Hex : ∃ h, h ∈ hs ∧ 0 < length h) by (apply max_len_spec; lia).
    destruct Hex as (h & Hh & Hlen).
    apply lookup_lt_is_Some_2 in Hlen as [y Hy].
    assert (Hin : y ∈ names_at hs 0) by (apply names_at_elem; by exists h).
    apply Hids in Hin. by apply elem_of_nil in Hin.
  - cbn [first_seen]. rewrite filter_cons_True by apply not_elem_of_nil.
    intros [= -> _].
    assert (Hx : x ∈ names_at hs 0) by (apply Hids; left).
    split.
    + destruct (frequency hs 0 x) eqn:E; [|lia].
      by apply frequency_zero in E.
    + intros y. destruct (decide (y ∈ x :: ids)) as [Hy|Hy].
      * apply elem_of_cons in Hy as [ ->|Hy]; [done|].
        apply StronglySorted_inv in Hsorted as [_ Hall].
        rewrite <- !Hkey. by apply (proj1 (Forall_forall _ _) Hall).
      * assert (Hz : frequency hs 0 y = 0).
        { apply frequency_zero. intros Hin. by apply Hy, Hids. }
        lia.
Qed.

Lemma first_column_is_most_frequent_witness :
  let hs := [["c"; "x"]; ["b"; "y"]; ["b"; "c"]] in
  canonical_header hs = ["b"; "c"; "x"; "y"]
  ∧ 1 ≤ frequency hs 0 "b" ∧ ∀ y, frequency hs 0 y ≤ frequency hs 0 "b".
Proof.
  intros hs.
  assert (Hc : canonical_header hs = ["b"; "c"; "x"; "y"])
    by (vm_compute; reflexivity).
  split; [exact Hc|].
  exact (first_column_is_most_frequent hs "b" ["c"; "x"; "y"] Hc).
Defined.

End header_mapper_more.

(** ** Rows and diagnostics of [read_data] *)

Section file_data_more.
Import FileData.
Implicit Types (h fl : list string) (c : string) (row : gmap string string)
  (lines : list string).

Lemma foldl_insert_other row h fl c :
  c ∉ h →
  foldl (λ row kv, <[kv.1 := kv.2]> row) row (zip h fl) !! c = row !! c.
Proof.
  revert row fl; induction h as [|y h IH]; intros row fl Hc; [done|].
  destruct fl as [|v fl]; [done|]. cbn [zip zip_with foldl].
  apply not_elem_of_cons in Hc as [Hne Hc].
  fold (zip h fl). rewrite IH by done. simpl. by rewrite lookup_insert_ne.
Qed.

Lemma zip_row_last h1 c h2 fl :
  c ∉ h2 → length fl = length (h1 ++ c :: h2) →
  zip_row (h1 ++ c :: h2) fl !! c = fl !! length h1.
Proof.
  intros Hc Hlen. rewrite length_app in Hlen. simpl in Hlen.
  rewrite <- (take_drop (length h1) fl).
  assert (Htake : length (take (length h1) fl) = length h1)
    by (rewrite length_take; lia).
  destruct (drop (length h1) fl) as [|v f2] eqn:Ed.
  { pose proof (length_drop fl (length h1)) as Hd. rewrite Ed in Hd.
    simpl in Hd. lia. }
  unfold zip_row. rewrite zip_with_app by (by rewrite Htake).
  rewrite foldl_app. cbn [zip_with foldl]. fold (zip h2 f2).
  rewrite foldl_insert_other by done. simpl. rewrite lookup_insert_eq.
  rewrite lookup_app_r by lia. by rewrite Htake, Nat.sub_diag.
Qed.

(** X9. The row stored for a data line maps every column name to the field
    under the last occurrence of the name in the header (with distinct names:
    to the field of the same position), and has no other key. *)
Theorem stored_row_maps_names_to_fields h fl :
  length fl = length h →
  ∃ row,
    fill_row fl (Py.enumerate h) ∅ = ret row
    ∧ (∀ h1 c h2, h = h1 ++ c :: h2 → c ∉ h2 → row !! c = fl !! length h1)
    ∧ (∀ c, c ∉ h → row !! c = None).
Proof.
  intros Hlen. exists (zip_row h fl). split; [|split].
  - unfold Py.enumerate. rewrite fill_row_zip by (simpl; lia).
    by rewrite drop_0.
  - intros h1 c h2 -> Hc. by apply zip_row_last.
  - intros c Hc. unfold zip_row. by rewrite foldl_insert_other.
Qed.

Lemma stored_row_maps_names_to_fields_witness :
  ∃ row,
    fill_row ["1"; "2"; "3"] (Py.enumerate ["a"; "b"; "a"]) ∅ = ret row
    ∧ row !! "a" = Some "3" ∧ row !! "b" = Some "2" ∧ row !! "c" = None.
Proof.
  destruct (stored_row_maps_names_to_fields ["a"; "b"; "a"] ["1"; "2"; "3"]
              eq_refl) as (row & Hrow & Hlast & Hnone).
  exists row. split; [exact Hrow|]. split; [|split].
  - apply (Hlast ["a"; "b"] "a" []); [reflexivity | apply not_elem_of_nil].
  - apply (Hlast ["a"] "b" ["a"]); [reflexivity|].
    apply (bool_decide_unpack _). vm_compute. exact I.
  - apply Hnone. apply (bool_decide_unpack _). vm_compute. exact I.
Defined.

(** X10. A canonical column that a stored row has is rendered as the row's
    value, at that column's position in the output record. *)
Theorem present_column_is_row_value
    (fd : FileData.t) (ordered_array : list string) (null_value : string)
    (output_file_name : bool) (i : nat) row (j : nat) (column_id v : string) :
  data_arr fd !! i = Some row →
  ordered_array !! j = Some column_id →
  row !! column_id = Some v →
  ∃ record,
    get_ordered_output_array fd ordered_array null_value output_file_name !! i
    = Some record
    ∧ record !! ((if output_file_name then 1 else 0) + j) = Some v.
Proof.
  intros Hrow Hcol Hv.
  exists (ordered_record fd ordered_array null_value output_file_name row).
  unfold get_ordered_output_array. rewrite list_lookup_fmap, Hrow.
  split; [done|]. unfold ordered_record.
  rewrite lookup_app_r by (destruct output_file_name; simpl; lia).
  replace ((if output_file_name then 1 else 0) + j
           - length (if output_file_name then [file_name fd] else []))
    with j by (destruct output_file_name; simpl; lia).
  by rewrite list_lookup_fmap, Hcol; simpl; rewrite Hv.
Qed.

Lemma present_column_is_row_value_witness :
  let row : gmap string string := {[ "name" := "Bob"; "score" := "99" ]} in
  let fd := {| file_name := "B"; header_arr := ["name"; "score"];
               header_length := 2; delimiter := TAB; data_arr := [row] |} in
  ∃ record,
    get_ordered_output_array fd ["id"; "name"; "score"] "None" true !! 0
    = Some record
    ∧ record !! 3 = Some "99".
Proof.
  intros row fd.
  apply (present_column_is_row_value fd ["id"; "name"; "score"] "None" true
           0 row 2 "score" "99"); reflexivity.
Defined.

Lemma stored_plus_reported h delim nm n lines :
  length (stored_rows h delim lines) + length (diags_from nm h delim n lines)
  = length (filter (λ line, is_data_line line = true) lines).
Proof.
  revert n; induction lines as [|line lines IH]; intros n; [done|].
  specialize (IH (n + 1)). unfold stored_rows in *.
  cbn [omap list_omap diags_from]. rewrite filter_cons, length_app.
  unfold line_row, line_diag in *.
  destruct (is_data_line line); simpl.
  - destruct (length (fields delim line) =? length h); simpl in *; lia.
  - lia.
Qed.

(** X11. [read_data] loses no data line silently: every line that is neither
    blank nor a comment either leaves one row in the store or one diagnostic
    in the log, never both. *)
Theorem data_line_is_stored_or_reported h (f : file_obj) (delim : string) :
  delim ≠ EmptyString →
  Forall (λ line, line ≠ EmptyString) (pending f) →
  ∃ diags fd,
    init h f delim = (diags, Ok fd)
    ∧ length (data_arr fd) + length diags
      = length (filter (λ line, is_data_line line = true) (pending f)).
Proof.
  intros Hd Hlines. do 2 eexists. split; [by apply init_spec|].
  simpl. apply stored_plus_reported.
Qed.

Lemma data_line_is_stored_or_reported_witness :
  ∃ diags fd,
    init ["a"; "b"]
      {| name := "A";
         pending := ["1" +:+ TAB +:+ "2" +:+ NL; NL; "#c" +:+ NL; "3" +:+ NL] |}
      TAB = (diags, Ok fd)
    ∧ length (data_arr fd) + length diags = 2.
Proof.
  apply (data_line_is_stored_or_reported ["a"; "b"]
           {| name := "A";
              pending := ["1" +:+ TAB +:+ "2" +:+ NL; NL; "#c" +:+ NL;
                          "3" +:+ NL] |} TAB).
  - discriminate.
  - repeat constructor; discriminate.
Defined.

Lemma diags_from_elem nm h delim n lines d :
  d ∈ diags_from nm h delim n lines
  ↔ ∃ k line,
      lines !! k = Some line ∧ is_data_line line = true
      ∧ length (fields delim line) ≠ length h
      ∧ d = InconsistentColumns nm (n + k + 1)
              (length (fields delim line)) (length h).
Proof.
  revert n; induction lines as [|line lines IH]; intros n.
  - simpl. split; [intros H; by apply elem_of_nil in H|].
    intros (k & line & Hk & _). by rewrite lookup_nil in Hk.
  - cbn [diags_from]. rewrite elem_of_app, IH. split.
    + intros [Hd|(k & line' & Hk & Hdata & Hne & ->)].
      * unfold line_diag in Hd.
        destruct (is_data_line line) eqn:Edata; simpl in Hd;
          [|by apply elem_of_nil in Hd].
        destruct (length (fields delim line) =? length h) eqn:Elen;
          simpl in Hd; [by apply elem_of_nil in Hd|].
        apply list_elem_of_singleton in Hd as ->.
        exists 0, line. apply Nat.eqb_neq in Elen.
        rewrite Nat.add_0_r. done.
      * exists (S k), line'. repeat split; try done. f_equal. lia.
    + intros (k & line' & Hk & Hdata & Hne & ->).
      destruct k as [|k]; simpl in Hk.
      * injection Hk as ->. left. unfold line_diag. rewrite Hdata. simpl.
        rewrite (proj2 (Nat.eqb_neq _ _) Hne). simpl.
        rewrite Nat.add_0_r. left.
      * right. exists k, line'. repeat split; try done. f_equal. lia.
Qed.

(** X12. The diagnostics of [read_data] are exactly the column-count errors
    of the data lines whose field count differs from the header length; the
    row number in each is the position of the line counted from the header
    line as row 1, and the count is the number of fields found. *)
Theorem diagnostics_are_the_mismatched_lines
    h (f : file_obj) (delim : string) (d : diag) :
  delim ≠ EmptyString →
  Forall (λ line, line ≠ EmptyString) (pending f) →
  ∃ diags fd,
    init h f delim = (diags, Ok fd)
    ∧ (d ∈ diags
       ↔ ∃ k line,
           pending f !! k = Some line ∧ is_data_line line = true
           ∧ length (fields delim line) ≠ length h
           ∧ d = InconsistentColumns (name f) (k + 2)
                   (length (fields delim line)) (length h)).
Proof.
  intros Hd Hlines. do 2 eexists. split; [by apply init_spec|].
  rewrite diags_from_elem. split.
  - intros (k & line & ? & ? & ? & ->). exists k, line.
    repeat split; try done. f_equal. lia.
  - intros (k & line & ? & ? & ? & ->). exists k, line.
    repeat split; try done. f_equal. lia.
Qed.

Lemma diagnostics_are_the_mismatched_lines_witness :
  ∃ diags fd,
    init ["a"; "b"]
      {| name := "A"; pending := ["1" +:+ TAB +:+ "2" +:+ NL; "3" +:+ NL] |}
      TAB = (diags, Ok fd)
    ∧ InconsistentColumns "A" 3 1 2 ∈ diags.
Proof.
  destruct (diagnostics_are_the_mismatched_lines ["a"; "b"]
              {| name := "A";
                 pending := ["1" +:+ TAB +:+ "2" +:+ NL; "3" +:+ NL] |}
              TAB (InconsistentColumns "A" 3 1 2))
    as (diags & fd & Hinit & Hiff).
  - discriminate.
  - repeat constructor; discriminate.
  - exists diags, fd. split; [exact Hinit|]. apply Hiff.
    exists 1, ("3" +:+ NL). repeat split; try reflexivity.
    vm_compute. lia.
Defined.

End file_data_more.

(** ** Finding the header line *)

Section read_header_more.
Import FileHandler.
Implicit Types (self : FileHandler.t) (f : file_obj) (raw line : string)
  (lines : list string).

Lemma rstrip_chars_nil (p : ascii → bool) s :
  Py.rstrip_chars p s = EmptyString ↔ Py.all_chars p s = true.
Proof.
  induction s as [|c s IH]; simpl; [done|].
  destruct (Py.rstrip_chars p s) as [|c' r] eqn:E.
  - destruct (p c); simpl; [by rewrite <- IH | done].
  - split; [done|]. intros [_ Hs]%andb_true_iff. apply IH in Hs. done.
Qed.

Lemma rstrip_chars_head (p : ascii → bool) c s :
  Py.rstrip_chars p (String c s) ≠ EmptyString →
  ∃ r, Py.rstrip_chars p (String c s) = String c r.
Proof.
  simpl. destruct (Py.rstrip_chars p s) as [|c' r]; [|by eexists].
  destruct (p c); [done | by eexists].
Qed.

Lemma rstrip_chars_not_all (p : ascii → bool) s :
  Py.all_chars p (Py.rstrip_chars p s) = true →
  Py.rstrip_chars p s = EmptyString.
Proof.
  induction s as [|c s IH]; simpl; [done|].
  destruct (Py.rstrip_chars p s) as [|c' r] eqn:E.
  - destruct (p c) eqn:Ec; [done|]. simpl. by rewrite Ec.
  - intros [_ Hr]%andb_true_iff. by apply IH in Hr.
Qed.

(** A line that is neither blank nor a comment is kept by [rstrip] from its
    first character on, and is neither empty nor blank afterwards. *)
Lemma rstrip_header_line raw :
  no_header_line raw = false →
  ∃ c r, Py.rstrip raw = String c r
         ∧ Ascii.eqb c Py.hash || Py.isspace (String c r) = false.
Proof.
  unfold no_header_line. intros [Hblank Hhash]%orb_false_iff.
  destruct raw as [|c raw]; [done|].
  destruct (rstrip_chars_head Py.is_whitespace c raw) as [r Hr].
  { intros Hnil%rstrip_chars_nil. unfold blank in Hblank. congruence. }
  exists c, r. split; [exact Hr|]. simpl in Hhash. rewrite Hhash. simpl.
  destruct (Py.is_whitespace c && Py.all_chars Py.is_whitespace r) eqn:E;
    [|done].
  pose proof (rstrip_chars_not_all Py.is_whitespace (String c raw)) as Hn.
  unfold Py.rstrip in Hr. rewrite Hr in Hn. by specialize (Hn E).
Qed.

Lemma read_header_loop_found comments raw rest c r :
  forallb starts_with_hash comments = true →
  Py.rstrip raw = String c r →
  Ascii.eqb c Py.hash || Py.isspace (String c r) = false →
  read_header_loop EmptyString (comments ++ raw :: rest)
  = ret (String c r, rest).
Proof.
  intros Hcomments Hraw Hkeep.
  induction comments as [|cm comments IH]; simpl.
  - rewrite Hraw, Hkeep. by destruct rest.
  - simpl in Hcomments. apply andb_true_iff in Hcomments as [Hc Hcs].
    destruct (rstrip_comment cm Hc) as [line' ->].
    rewrite Ascii.eqb_refl. simpl. by apply IH.
Qed.

(** X13. Comment lines before the header are skipped: when the lines of a
    file start with any number of comment lines followed by a line that is
    neither blank nor a comment, [read_header] returns that line, stripped of
    its trailing whitespace and split on the delimiter, leaves the file at
    the line after it, and logs nothing. *)
Theorem header_is_first_line_after_comments
    self f (comments : list string) raw (rest : list string) :
  delimiter self ≠ EmptyString →
  pending f = comments ++ raw :: rest →
  forallb starts_with_hash comments = true →
  no_header_line raw = false →
  read_header self f
  = ([], Ok (Header (Py.split_from (delimiter self) 0 EmptyString
                       (Py.rstrip raw)),
             {| name := name f; pending := rest |})).
Proof.
  intros Hd Hlines Hcomments Hraw.
  destruct (rstrip_header_line raw Hraw) as (c & r & Hr & Hkeep).
  unfold read_header.
  rewrite Hlines, (read_header_loop_found comments raw rest c r) by done.
  rewrite bind_ret. unfold split.
  destruct (delimiter self) as [|c0 d0] eqn:Ed; [done|].
  by rewrite bind_ret, Hr.
Qed.

Lemma header_is_first_line_after_comments_witness :
  read_header (init TAB)
    {| name := "A";
       pending := ["# made by a tool" +:+ NL;
                   "a" +:+ TAB +:+ "b" +:+ TAB +:+ NL;
                   "1" +:+ TAB +:+ "2" +:+ NL] |}
  = ([], Ok (Header ["a"; "b"],
             {| name := "A"; pending := ["1" +:+ TAB +:+ "2" +:+ NL] |})).
Proof.
  rewrite (header_is_first_line_after_comments (init TAB)
             {| name := "A";
                pending := ["# made by a tool" +:+ NL;
                            "a" +:+ TAB +:+ "b" +:+ TAB +:+ NL;
                            "1" +:+ TAB +:+ "2" +:+ NL] |}
             ["# made by a tool" +:+ NL] ("a" +:+ TAB +:+ "b" +:+ TAB +:+ NL)
             ["1" +:+ TAB +:+ "2" +:+ NL]).
  - vm_compute. reflexivity.
  - discriminate.
  - reflexivity.
  - reflexivity.
  - reflexivity.
Defined.

Lemma split_from_nonempty sep skip cur s : Py.split_from sep skip cur s ≠ [].
Proof.
  revert skip cur; induction s as [|c s IH]; intros skip cur; simpl; [done|].
  destruct skip; [|apply IH].
  match goal with
  | |- context [if ?b then _ else _] => destruct b
  end; [discriminate | apply IH].
Qed.

Lemma read_header_loop_log header_string lines :
  (read_header_loop header_string lines).1 = [].
Proof.
  revert header_string; induction lines as [|raw lines IH];
    intros header_string; destruct header_string; simpl; try done.
  destruct (Py.rstrip raw); [done|]. destruct (_ || _); apply IH.
Qed.

(** What [read_header] can return. *)
Lemma read_header_cases self f :
  (∃ e, read_header self f = ([], Raise e)
        ∧ (e = StopIteration ∨ e = IndexError ∨ e = ValueError))
  ∨ (∃ x cols f', read_header self f = ([], Ok (Header (x :: cols), f'))
                  ∧ delimiter self ≠ EmptyString).
Proof.
  unfold read_header.
  pose proof (read_header_loop_log EmptyString (pending f)) as Hlog.
  destruct (read_header_loop EmptyString (pending f)) as [l [[hs rest]|e]] eqn:E;
    simpl in Hlog; subst l.
  - pose proof (read_header_loop_ok _ _ _ _ _ E) as (_ & Hhs & _).
    rewrite !bind_ok. cbn [fst snd app]. destruct hs as [|c hs]; [done|].
    unfold split. destruct (delimiter self) as [|c0 d0] eqn:Ed.
    + left. exists ValueError. split; [done | by right; right].
    + right. rewrite bind_ret.
      destruct (Py.split_from (String c0 d0) 0 EmptyString (String c hs))
        as [|x cols] eqn:Es; [by apply split_from_nonempty in Es|].
      by exists x, cols, {| name := name f; pending := rest |}.
  - left. exists e. split; [done|].
    assert (He : e = StopIteration ∨ e = IndexError); [|tauto].
    clear -E. revert E. generalize (pending f) as lines.
    induction lines as [|raw lines IH]; simpl; [intros [= <-]; by left|].
    destruct (Py.rstrip raw); [intros [= <-]; by right|].
    destruct (_ || _); [exact IH|].
    destruct lines; simpl; done.
Qed.

(** X14. The only diagnostics [add_file] ever logs are the column-count
    errors of the file it reads: the warnings "File is empty" and "Skipping
    file ... no header found!" are never logged, whatever the file holds. *)
Theorem add_file_logs_only_column_errors
    (fs : file_system) self (p : string) (d : diag) :
  d ∈ (add_file fs self p).1 →
  ∃ line_num ncols header_length,
    d = InconsistentColumns p line_num ncols header_length.
Proof.
  unfold add_file.
  destruct (read_header_cases self (open_file fs p))
    as [(e & -> & _)|(x & cols & f' & Hread & Hd)].
  - simpl. intros H. by apply elem_of_nil in H.
  - pose proof (read_header_ok _ _ _ _ _ Hread) as (_ & _ & Hname & [pre Hpre] & _).
    rewrite Hread, bind_ok. cbn [fst snd app falsy]. rewrite bind_ret.
    assert (Hlines : Forall (λ line, line ≠ EmptyString) (pending f')).
    { pose proof (open_file_nonempty fs p) as Hall. rewrite Hpre in Hall.
      by apply Forall_app in Hall as [_ ?]. }
    rewrite init_spec by done. rewrite bind_ok. cbn [fst snd ret].
    rewrite app_nil_r, Hname, open_file_name.
    intros (k & line & _ & _ & _ & ->)%diags_from_elem. by do 3 eexists.
Qed.

Lemma add_file_logs_only_column_errors_witness :
  let fs := files_of [("P", "a" +:+ TAB +:+ "b" +:+ NL +:+ "1" +:+ NL)] in
  (add_file fs (init TAB) "P").1 = [InconsistentColumns "P" 2 1 2]
  ∧ ∃ line_num ncols header_length,
      InconsistentColumns "P" 2 1 2
      = InconsistentColumns "P" line_num ncols header_length.
Proof.
  intros fs.
  assert (Hlog : (add_file fs (init TAB) "P").1 = [InconsistentColumns "P" 2 1 2])
    by (vm_compute; reflexivity).
  split; [exact Hlog|].
  apply (add_file_logs_only_column_errors fs (init TAB) "P").
  rewrite Hlog. left.
Defined.

(** X15. With an empty input delimiter no file can be added: [add_file]
    raises for every file, [ValueError] from [split] as soon as the file has
    a header line. *)
Theorem empty_delimiter_always_raises (fs : file_system) self (p : string) :
  delimiter self = EmptyString →
  ∃ e, add_file fs self p = ([], Raise e)
       ∧ (e = StopIteration ∨ e = IndexError ∨ e = ValueError).
Proof.
  intros Hd. unfold add_file.
  destruct (read_header_cases self (open_file fs p))
    as [(e & -> & He)|(x & cols & f' & _ & Hne)]; [|done].
  by exists e.
Qed.

Lemma empty_delimiter_always_raises_witness :
  ∃ e, add_file reports (init EmptyString) "A" = ([], Raise e)
       ∧ (e = StopIteration ∨ e = IndexError ∨ e = ValueError).
Proof.
  apply (empty_delimiter_always_raises reports (init EmptyString) "A").
  reflexivity.
Defined.

End read_header_more.

(** ** Lines, fields and the printed text *)

Section text_more.
Implicit Types (s t body cur cell : string) (c a : ascii) (row : list string)
  (p : ascii → bool).

Lemma append_cons a s t : String a s +:+ t = String a (s +:+ t).
Proof. reflexivity. Qed.

Lemma append_nil_l s : EmptyString +:+ s = s.
Proof. reflexivity. Qed.

Lemma append_nil_r s : s +:+ EmptyString = s.
Proof. induction s as [|a s IH]; [done|]. by rewrite append_cons, IH. Qed.

Lemma append_assoc s t u : (s +:+ t) +:+ u = s +:+ t +:+ u.
Proof. induction s as [|a s IH]; [done|]. by rewrite !append_cons, IH. Qed.

Lemma rstrip_chars_snoc p s a :
  p a = true →
  Py.rstrip_chars p (s +:+ String a EmptyString) = Py.rstrip_chars p s.
Proof.
  intros Ha. induction s as [|b s IH].
  - rewrite append_nil_l. simpl. by rewrite Ha.
  - rewrite append_cons. simpl. by rewrite IH.
Qed.

Lemma rstrip_chars_keep p s :
  (∀ a, last_char s = Some a → p a = false) → Py.rstrip_chars p s = s.
Proof.
  induction s as [|b s IH]; [done|]. intros Hlast. simpl.
  destruct s as [|b' s].
  - simpl. by rewrite (Hlast b eq_refl).
  - rewrite IH by exact Hlast. done.
Qed.

Lemma last_char_snoc s a : last_char (s +:+ String a EmptyString) = Some a.
Proof.
  induction s as [|b s IH]; [done|]. rewrite append_cons. simpl.
  destruct (s +:+ String a EmptyString) eqn:E; [|done].
  destruct s; discriminate.
Qed.

(** X16. Windows line ends are tolerated on data lines: a line ending in
    carriage return and newline has the same fields as the same line ending
    in a newline alone, namely those of its text before the line end. *)
Theorem crlf_data_line_has_same_fields (delim body : string) :
  last_char body ≠ Some Py.newline →
  last_char body ≠ Some Py.carriage_return →
  fields delim (body +:+ String Py.carriage_return NL)
  = Py.split_from delim 0 EmptyString body
  ∧ fields delim (body +:+ NL) = Py.split_from delim 0 EmptyString body.
Proof.
  intros Hnl Hcr. unfold fields, Py.rstrip_char, NL.
  assert (Hkeep_cr : Py.rstrip_chars (Ascii.eqb Py.carriage_return) body = body).
  { apply rstrip_chars_keep. intros a Ha.
    apply Ascii.eqb_neq. congruence. }
  assert (Hkeep_nl : Py.rstrip_chars (Ascii.eqb Py.newline) body = body).
  { apply rstrip_chars_keep. intros a Ha.
    apply Ascii.eqb_neq. congruence. }
  split.
  - change (String Py.carriage_return (String Py.newline EmptyString))
      with (String Py.carriage_return EmptyString
            +:+ String Py.newline EmptyString).
    rewrite <- append_assoc, rstrip_chars_snoc by done.
    rewrite (rstrip_chars_keep (Ascii.eqb Py.newline)).
    + by rewrite rstrip_chars_snoc, Hkeep_cr.
    + intros a. rewrite last_char_snoc. by intros [= <-].
  - by rewrite rstrip_chars_snoc, Hkeep_nl, Hkeep_cr.
Qed.

Lemma crlf_data_line_has_same_fields_witness :
  fields TAB ("1" +:+ TAB +:+ "Alice" +:+ String Py.carriage_return NL)
  = ["1"; "Alice"].
Proof.
  destruct (crlf_data_line_has_same_fields TAB ("1" +:+ TAB +:+ "Alice"))
    as [Hcrlf _]; [discriminate | discriminate |].
  rewrite append_assoc, append_assoc in Hcrlf. rewrite Hcrlf.
  vm_compute. reflexivity.
Defined.

(** *** Writing records and reading them back *)

Lemma all_chars_app p s t :
  Py.all_chars p (s +:+ t) = Py.all_chars p s && Py.all_chars p t.
Proof.
  induction s as [|a s IH]; [done|].
  rewrite append_cons. simpl. by rewrite IH, andb_assoc.
Qed.

Lemma free_of_last c s : free_of c s = true → last_char s ≠ Some c.
Proof.
  unfold free_of. induction s as [|a s IH]; [done|]. simpl.
  intros [Ha Hs]%andb_true_iff. destruct s as [|b s].
  - intros [= ->]. by rewrite Ascii.eqb_refl in Ha.
  - by apply IH.
Qed.

Lemma prefix_char c a s :
  String.prefix (String c EmptyString) (String a s) = Ascii.eqb c a.
Proof.
  simpl. destruct (ascii_dec c a) as [->|Hne].
  - rewrite Ascii.eqb_refl. by destruct s.
  - symmetry. by apply Ascii.eqb_neq.
Qed.

Lemma split_cell c cur cell t :
  free_of c cell = true →
  Py.split_from (String c EmptyString) 0 cur (cell +:+ String c t)
  = (cur +:+ cell) :: Py.split_from (String c EmptyString) 0 EmptyString t.
Proof.
  unfold free_of. revert cur; induction cell as [|a cell IH]; intros cur Hfree.
  - rewrite append_nil_l, append_nil_r. cbn [Py.split_from].
    by rewrite prefix_char, Ascii.eqb_refl.
  - simpl in Hfree. apply andb_true_iff in Hfree as [Ha Hcell].
    apply negb_true_iff in Ha. rewrite Ascii.eqb_sym in Ha.
    rewrite append_cons. cbn [Py.split_from]. rewrite prefix_char, Ha.
    rewrite IH by done. by rewrite append_assoc.
Qed.

Lemma split_last_cell c cur cell :
  free_of c cell = true →
  Py.split_from (String c EmptyString) 0 cur cell = [cur +:+ cell].
Proof.
  unfold free_of. revert cur; induction cell as [|a cell IH]; intros cur Hfree.
  - by rewrite append_nil_r.
  - simpl in Hfree. apply andb_true_iff in Hfree as [Ha Hcell].
    apply negb_true_iff in Ha. rewrite Ascii.eqb_sym in Ha.
    cbn [Py.split_from]. rewrite prefix_char, Ha.
    rewrite IH by done. by rewrite append_assoc.
Qed.

Lemma split_join c row :
  row ≠ [] → Forall (λ cell, free_of c cell = true) row →
  Py.split_from (String c EmptyString) 0 EmptyString
    (Py.join (String c EmptyString) row) = row.
Proof.
  intros Hne Hrow. induction Hrow as [|cell row Hcell Hrow IH]; [done|].
  destruct row as [|cell' row].
  - simpl. by rewrite split_last_cell.
  - cbn [Py.join]. rewrite append_cons, append_nil_l.
    rewrite split_cell by done. rewrite append_nil_l. f_equal. by apply IH.
Qed.

Lemma join_cons sep cell cell' row :
  Py.join sep (cell :: cell' :: row)
  = cell +:+ sep +:+ Py.join sep (cell' :: row).
Proof. reflexivity. Qed.

Lemma free_of_join a c row :
  a ≠ c → Forall (λ cell, free_of a cell = true) row →
  free_of a (Py.join (String c EmptyString) row) = true.
Proof.
  intros Hac Hrow. induction Hrow as [|cell row Hcell Hrow IH]; [done|].
  destruct row as [|cell' row]; [done|].
  rewrite join_cons. unfold free_of in *.
  rewrite all_chars_app, Hcell, append_cons, append_nil_l.
  cbn [Py.all_chars andb].
  rewrite IH. by rewrite (proj2 (Ascii.eqb_neq _ _)) by congruence.
Qed.

Lemma clean_record_free c row :
  clean_record c row →
  row ≠ []
  ∧ Forall (λ cell, free_of c cell = true) row
  ∧ Forall (λ cell, free_of Py.newline cell = true) row
  ∧ Forall (λ cell, free_of Py.carriage_return cell = true) row.
Proof.
  intros [Hne Hrow]. split; [done|].
  repeat split; (eapply Forall_impl; [exact Hrow|]); simpl;
    unfold clean_cell; intros cell H;
    repeat (apply andb_true_iff in H as [H ?]); done.
Qed.

(** A written record is read back as it was. *)
Lemma fields_join c row :
  c ≠ Py.newline → c ≠ Py.carriage_return → clean_record c row →
  fields (String c EmptyString) (Py.join (String c EmptyString) row +:+ NL)
  = row.
Proof.
  intros Hnl Hcr (Hne & Hc & Hn & Hr)%clean_record_free.
  unfold fields, Py.rstrip_char, NL.
  rewrite rstrip_chars_snoc by done.
  rewrite (rstrip_chars_keep (Ascii.eqb Py.newline)).
  - rewrite (rstrip_chars_keep (Ascii.eqb Py.carriage_return)).
    + by apply split_join.
    + intros a Ha. apply Ascii.eqb_neq. intros <-.
      by apply (free_of_last Py.carriage_return _ (free_of_join _ c _ (not_eq_sym Hcr) Hr)).
  - intros a Ha. apply Ascii.eqb_neq. intros <-.
    by apply (free_of_last Py.newline _ (free_of_join _ c _ (not_eq_sym Hnl) Hn)).
Qed.

Lemma file_lines_line s t :
  free_of Py.newline s = true →
  Py.file_lines (s +:+ NL +:+ t) = (s +:+ NL) :: Py.file_lines t.
Proof.
  unfold free_of, NL. induction s as [|a s IH]; intros Hfree.
  - rewrite !append_nil_l, append_cons, append_nil_l. simpl. done.
  - simpl in Hfree. apply andb_true_iff in Hfree as [Ha Hs].
    apply negb_true_iff in Ha. rewrite !(append_cons a s).
    cbn [Py.file_lines]. rewrite Ha, IH by done. done.
Qed.

Lemma array_to_string_from acc (array : list (list string)) delim :
  foldl (λ out_string row,
           out_string +:+ Py.join delim row +:+ String Py.newline EmptyString)
    acc array
  = acc +:+ array_to_string array delim.
Proof.
  unfold array_to_string. revert acc.
  induction array as [|row array IH]; intros acc; cbn [foldl].
  - by rewrite append_nil_r.
  - rewrite IH, (IH (EmptyString +:+ _)), append_nil_l, !append_assoc. done.
Qed.

Lemma array_to_string_cons row array delim :
  array_to_string (row :: array) delim
  = Py.join delim row +:+ NL +:+ array_to_string array delim.
Proof.
  unfold array_to_string at 1. cbn [foldl].
  by rewrite array_to_string_from, append_nil_l, append_assoc.
Qed.

(** X17. The text [array_to_string] writes, read back line by line and split
    with the same one-character delimiter, gives the records it was written
    from, provided no record is empty and no cell holds the delimiter, a
    newline or a carriage return. *)
Theorem written_table_reads_back (c : ascii) (array : list (list string)) :
  c ≠ Py.newline → c ≠ Py.carriage_return →
  Forall (clean_record c) array →
  fields (String c EmptyString)
    <$> Py.file_lines (array_to_string array (String c EmptyString))
  = array.
Proof.
  intros Hnl Hcr Harray.
  induction Harray as [|row array Hrow Harray IH]; [done|].
  rewrite array_to_string_cons.
  pose proof (clean_record_free _ _ Hrow) as (_ & _ & Hn & _).
  rewrite file_lines_line by (by apply free_of_join).
  rewrite fmap_cons, IH, fields_join by done. done.
Qed.

Lemma written_table_reads_back_witness :
  fields TAB
    <$> Py.file_lines
          (array_to_string [["id"; "name"]; ["1"; ""]; [""; "Bob"]] TAB)
  = [["id"; "name"]; ["1"; ""]; [""; "Bob"]].
Proof.
  apply (written_table_reads_back Py.tab
           [["id"; "name"]; ["1"; ""]; [""; "Bob"]]).
  - discriminate.
  - discriminate.
  - repeat constructor; (discriminate || reflexivity).
Defined.

(** *** Compressed inputs *)

Lemma last3_suffix s : ∃ stem, s = stem +:+ Py.last3 s.
Proof.
  induction s as [|a s [stem IH]]; [by exists EmptyString|].
  cbn [Py.last3]. destruct (3 <=? String.length s).
  - exists (String a stem). rewrite append_cons. by f_equal.
  - by exists EmptyString.
Qed.

Lemma string_length_app s t :
  String.length (s +:+ t) = String.length s + String.length t.
Proof.
  induction s as [|a s IH]; [done|]. rewrite append_cons. simpl. by rewrite IH.
Qed.

Lemma last3_app stem t : String.length t = 3 → Py.last3 (stem +:+ t) = t.
Proof.
  intros Ht. induction stem as [|a stem IH].
  - rewrite append_nil_l. destruct t as [|a t]; [done|]. cbn [Py.last3].
    simpl in Ht. destruct (3 <=? String.length t) eqn:E; [|done].
    apply Nat.leb_le in E. lia.
  - rewrite append_cons. cbn [Py.last3].
    rewrite (proj2 (Nat.leb_le _ _)); [done|].
    rewrite string_length_app. lia.
Qed.

(** X18. [open_file] reads a path through [gzip] exactly when the path ends
    in ".gz" (the path ".gz" itself included); every other path is read as
    plain text. The file object carries the path as its name either way. *)
Theorem gz_suffix_selects_gzip (fs : file_system) (file_path : string) :
  name (FileHandler.open_file fs file_path) = file_path
  ∧ ((∃ stem, file_path = stem +:+ ".gz") →
     pending (FileHandler.open_file fs file_path)
     = Py.file_lines (gunzip_of fs file_path))
  ∧ ((¬ ∃ stem, file_path = stem +:+ ".gz") →
     pending (FileHandler.open_file fs file_path)
     = Py.file_lines (text_of fs file_path)).
Proof.
  unfold FileHandler.open_file. split; [by destruct (decide _)|]. split.
  - intros [stem ->]. by rewrite last3_app, decide_True.
  - intros Hno. destruct (decide (Py.last3 file_path = ".gz")) as [Hgz|]; [|done].
    exfalso. apply Hno. destruct (last3_suffix file_path) as [stem Hs].
    exists stem. by rewrite <- Hgz.
Qed.

Lemma gz_suffix_selects_gzip_witness :
  let fs := {| text_of := λ _, "compressed bytes";
               gunzip_of := λ _, "a" +:+ NL +:+ "1" +:+ NL |} in
  pending (FileHandler.open_file fs "report.txt.gz") = ["a" +:+ NL; "1" +:+ NL]
  ∧ pending (FileHandler.open_file fs "report.gzip") = ["compressed bytes"].
Proof.
  intros fs.
  destruct (gz_suffix_selects_gzip fs "report.txt.gz") as (_ & Hgz & _).
  destruct (gz_suffix_selects_gzip fs "report.gzip") as (_ & _ & Hplain).
  split.
  - rewrite Hgz; [reflexivity | by exists "report.txt"].
  - rewrite Hplain; [reflexivity|].
    intros [stem Hstem].
    assert (Hlast : Py.last3 "report.gzip" = ".gz")
      by (rewrite Hstem; by apply last3_app).
    vm_compute in Hlast. discriminate.
Defined.

End text_more.

(** ** The table *)

Section table_more.
Import FileHandler.
Implicit Types (self : FileHandler.t) (fd : FileData.t)
  (final names : list string) (null_value : string) (output_file_name : bool)
  (array : list (list string)).

Lemma fmap_concat {A B} (g : A → B) (ls : list (list A)) :
  g <$> concat ls = concat ((λ l : list A, g <$> l) <$> ls).
Proof.
  induction ls as [|l ls IH]; [done|].
  cbn [concat]. rewrite fmap_app, IH. done.
Qed.

Lemma output_rows_names self final null_value output_file_name names acc l out :
  output_rows self final null_value output_file_name names acc = (l, Ok out) →
  Forall (λ p, is_Some (file_data_mapping self !! p)) names.
Proof.
  revert acc; induction names as [|p names IH]; intros acc; [constructor|].
  cbn [output_rows].
  destruct (file_data_mapping self !! p) as [fd|] eqn:E; [|done].
  intros H. constructor; [by eexists | by eapply IH].
Qed.

Lemma get_output_array_names self null_value output_file_name l array self' :
  get_output_array self null_value output_file_name = (l, Ok (array, self')) →
  Forall (λ p, is_Some (file_data_mapping self !! p)) (file_name_arr self).
Proof.
  unfold get_output_array.
  destruct (HeaderMapper.get_header (header_mapping self)) as [final hm].
  match goal with
  | |- context [output_rows ?s ?f ?n ?o ?ns ?a] =>
      destruct (output_rows s f n o ns a) as [l0 [out|e]] eqn:Eo
  end; [|done].
  intros _. by apply output_rows_names in Eo.
Qed.

Lemma table_is_rectangular self null_value output_file_name l array self' :
  get_output_array self null_value output_file_name = (l, Ok (array, self')) →
  let final := (HeaderMapper.get_header (header_mapping self)).1 in
  head array = Some (if output_file_name then "file_path" :: final else final)
  ∧ Forall (λ r, length r
                 = (if output_file_name then 1 else 0) + length final) array.
Proof.
  intros Hget final.
  pose proof (get_output_array_ok _ _ _ _ _ _ Hget) as (_ & -> & _).
  fold final. split; [done|]. constructor.
  - by destruct output_file_name.
  - apply Forall_concat, Forall_fmap, Forall_forall. intros p _. simpl.
    unfold block_of. destruct (file_data_mapping self !! p).
    + apply ordered_records_length.
    + constructor.
Qed.

(** X19. The table built with the file path in front is the table built
    without it, with one more first column: dropping the first cell of every
    record of the one gives the other, and its header record starts with
    "file_path". *)
Theorem file_path_is_an_added_first_column self null_value l array self' :
  get_output_array self null_value true = (l, Ok (array, self')) →
  get_output_array self null_value false = (l, Ok (tail <$> array, self'))
  ∧ head array
    = Some ("file_path"
            :: (HeaderMapper.get_header (header_mapping self)).1).
Proof.
  intros Hget.
  pose proof (get_output_array_names _ _ _ _ _ _ Hget) as Hnames.
  pose proof (get_output_array_ok _ _ _ _ _ _ Hget) as (-> & Harr & Hself).
  destruct (get_output_array_total self null_value false Hnames)
    as (array0 & self0 & Hget0).
  pose proof (get_output_array_ok _ _ _ _ _ _ Hget0) as (_ & Harr0 & Hself0).
  split; [|by rewrite Harr].
  rewrite Hget0, Hself, <- Hself0. do 3 f_equal.
  rewrite Harr, Harr0, fmap_cons. cbn [tail]. f_equal.
  rewrite fmap_concat, <- list_fmap_compose. f_equal.
  apply list_fmap_ext. intros i p _. simpl. unfold block_of.
  destruct (file_data_mapping self !! p) as [fd|]; [|done].
  unfold FileData.get_ordered_output_array.
  rewrite <- list_fmap_compose. by apply list_fmap_ext.
Qed.

Lemma file_path_is_an_added_first_column_witness :
  ∃ l self array self',
    add_files (init TAB) [(reports, "A"); (reports, "B")] = (l, Ok self)
    ∧ get_output_array self "None" true = ([], Ok (array, self'))
    ∧ get_output_array self "None" false
      = ([], Ok ([["id"; "name"; "score"];
                  ["1"; "Alice"; "None"];
                  ["None"; "Bob"; "99"]], self')).
Proof.
  destruct (add_files (init TAB) [(reports, "A"); (reports, "B")])
    as [l [self|e]] eqn:Eadd; [|vm_compute in Eadd; discriminate].
  destruct (get_output_array self "None" true)
    as [l' [[array self']|e]] eqn:Eget.
  - destruct (file_path_is_an_added_first_column self "None" l' array self' Eget)
      as [Hfalse _].
    assert (Harr : l' = [] ∧ tail <$> array
                            = [["id"; "name"; "score"];
                               ["1"; "Alice"; "None"];
                               ["None"; "Bob"; "99"]]).
    { vm_compute in Eadd. injection Eadd as _ <-.
      vm_compute in Eget. injection Eget as <- <- _. done. }
    destruct Harr as [-> Harr]. rewrite Harr in Hfalse.
    by exists l, self, array, self'.
  - vm_compute in Eadd. injection Eadd as _ <-.
    vm_compute in Eget. discriminate.
Defined.

(** [zip] over the rows of a rectangular matrix with at least one column,
    applied twice, gives the matrix back. *)
Lemma zip_star_involutive {A} ncols (rows : list (list A)) :
  rows ≠ [] → Forall (λ r, length r = ncols) rows → 0 < ncols →
  Py.zip_star (Py.zip_star rows) = rows.
Proof.
  intros Hne Hrect Hcols.
  destruct (zip_star_rect ncols rows Hne Hrect) as (Hlen & Hrows & Hcells).
  assert (HneT : Py.zip_star rows ≠ []).
  { intros HT. rewrite HT in Hlen. simpl in Hlen. lia. }
  destruct (zip_star_rect (length rows) (Py.zip_star rows) HneT Hrows)
    as (Hlen' & Hrows' & Hcells').
  apply list_eq. intros i.
  destruct (rows !! i) as [r|] eqn:Er.
  - assert (Hi : i < length (Py.zip_star (Py.zip_star rows))).
    { rewrite Hlen'. by eapply lookup_lt_Some. }
    apply lookup_lt_is_Some_2 in Hi as [r' Er']. rewrite Er'. f_equal.
    apply list_eq. intros j.
    pose proof (Hcells' j i) as H1. pose proof (Hcells i j) as H2.
    rewrite Er' in H1. rewrite Er in H2. simpl in H1, H2. congruence.
  - apply lookup_ge_None. rewrite Hlen'. by apply lookup_ge_None.
Qed.

(** X20. Transposing the table twice gives the table back as soon as it has
    a column; a table without any column (no header registered and no file
    path asked for) transposes to the empty table, whatever rows it has. *)
Theorem transposing_twice_gives_the_table
    self null_value output_file_name l array self' :
  get_output_array self null_value output_file_name = (l, Ok (array, self')) →
  (head array ≠ Some [] →
   transpose_array (transpose_array array) = array)
  ∧ (head array = Some [] → transpose_array array = []).
Proof.
  intros Hget.
  destruct (table_is_rectangular _ _ _ _ _ _ Hget) as [Hhead Hrect].
  split.
  - intros Hcol. unfold transpose_array.
    eapply zip_star_involutive; [|exact Hrect|].
    + intros ->. done.
    + rewrite Hhead in Hcol.
      destruct output_file_name; [lia|].
      destruct ((HeaderMapper.get_header (header_mapping self)).1);
        [done | simpl; lia].
  - intros Hnone. unfold transpose_array, Py.zip_star.
    destruct array as [|r rows]; [done|]. injection Hnone as ->.
    assert (Hmin : foldr (λ (r' : list string) n, Nat.min (length r') n)
                     (length (@nil string)) rows = 0).
    { clear. induction rows as [|r rows IH]; [done|]. simpl in *.
      rewrite IH. lia. }
    by rewrite Hmin.
Qed.

Lemma transposing_twice_gives_the_table_witness :
  ∃ l self array self',
    add_files (init TAB) [(reports, "A"); (reports, "B")] = (l, Ok self)
    ∧ get_output_array self "None" false = ([], Ok (array, self'))
    ∧ transpose_array array
      = [["id"; "1"; "None"]; ["name"; "Alice"; "Bob"]; ["score"; "None"; "99"]]
    ∧ transpose_array (transpose_array array) = array.
Proof.
  destruct (add_files (init TAB) [(reports, "A"); (reports, "B")])
    as [l [self|e]] eqn:Eadd; [|vm_compute in Eadd; discriminate].
  destruct (get_output_array self "None" false)
    as [l' [[array self']|e]] eqn:Eget.
  - destruct (transposing_twice_gives_the_table self "None" false l' array
                self' Eget) as [Htwice _].
    assert (Harr : l' = [] ∧ array = [["id"; "name"; "score"];
                                      ["1"; "Alice"; "None"];
                                      ["None"; "Bob"; "99"]]).
    { vm_compute in Eadd. injection Eadd as _ <-.
      vm_compute in Eget. injection Eget as <- <- _. done. }
    destruct Harr as [-> Harr].
    exists l, self, array, self'.
    split; [done|]. split; [done|]. split.
    + rewrite Harr. vm_compute. reflexivity.
    + apply Htwice. rewrite Harr. discriminate.
  - vm_compute in Eadd. injection Eadd as _ <-.
    vm_compute in Eget. discriminate.
Defined.

(** *** Files with one and the same header *)

Lemma stored_rows_kept (h : list string) (delim : string) (lines : list string) :
  stored_rows h delim lines
  = zip_row h <$> (fields delim
                     <$> filter (λ line, kept_line h delim line = true) lines).
Proof.
  unfold stored_rows. induction lines as [|line lines IH]; [done|].
  cbn [omap list_omap]. rewrite filter_cons. unfold line_row at 1.
  fold (kept_line h delim line).
  destruct (kept_line h delim line) eqn:E.
  - rewrite decide_True by done. rewrite !fmap_cons. f_equal. exact IH.
  - rewrite decide_False by (by intros ?). exact IH.
Qed.

Lemma record_of_own_header (h fl : list string) (na_value : string) :
  NoDup h → length fl = length h →
  (λ column_id, default na_value (zip_row h fl !! column_id)) <$> h = fl.
Proof.
  intros Hnd Hlen. apply list_eq. intros k. rewrite list_lookup_fmap.
  destruct (h !! k) as [c|] eqn:Ek; simpl.
  - pose proof (take_drop_middle _ _ _ Ek) as Hsplit.
    assert (Hc : c ∉ drop (S k) h).
    { rewrite <- Hsplit in Hnd. apply NoDup_app in Hnd as (_ & _ & Hnd).
      by apply NoDup_cons in Hnd as [? _]. }
    pose proof (zip_row_last (take k h) c (drop (S k) h) fl Hc) as Hz.
    rewrite Hsplit in Hz. rewrite Hz by done.
    assert (Hk : k < length h) by (by eapply lookup_lt_Some).
    rewrite length_take, Nat.min_l by lia.
    destruct (fl !! k) as [v|] eqn:Ev; [done|].
    apply lookup_ge_None in Ev. lia.
  - symmetry. apply lookup_ge_None. apply lookup_ge_None in Ek. lia.
Qed.

(** The rows of a table built without the file path. *)
Lemma run_rows (fs : file_system) (delim na_value : string)
    (files : list string) (l : list diag) (out : list (list string)) :
  run fs delim na_value false false files = (l, Ok out) →
  out = canonical_header
          (omap (λ p, fst <$> header_and_lines fs delim p) files)
        :: concat (file_rows fs delim
                     (canonical_header
                        (omap (λ p, fst <$> header_and_lines fs delim p) files))
                     na_value false <$> files).
Proof.
  unfold run. intros Hrun.
  destruct (add_files _ _) as [l1 [self|e]] eqn:Eadd; [|done].
  rewrite bind_ok in Hrun. cbn [fst snd] in Hrun.
  pose proof (canonical_after_add_files _ _ _ _ Eadd) as Hfinal.
  destruct (output_after_add_files _ _ _ _ na_value false Eadd)
    as [self' Hget].
  rewrite Hfinal, call_headers_static in Hget.
  rewrite Hget, bind_ok in Hrun. cbn [fst snd ret] in Hrun.
  injection Hrun as _ <-. f_equal. f_equal.
  rewrite <- list_fmap_compose. rewrite <- list_fmap_compose.
  apply list_fmap_ext. intros i p Hp. simpl.
  assert (Hlast : last_call ((λ p, (fs, p)) <$> files) p = Some fs).
  { destruct (last_call_elem ((λ p, (fs, p)) <$> files) p) as (fs' & Hl & Hin).
    - rewrite <- list_fmap_compose. simpl.
      apply list_elem_of_fmap. exists p. split; [done|].
      by eapply list_elem_of_lookup_2.
    - apply list_elem_of_fmap in Hin as (q & [= -> ->] & _). done. }
  unfold row_block, file_rows. rewrite Hlast. simpl. unfold loaded.
  destruct (header_and_lines fs delim p) as [[h rest]|]; [|done].
  done.
Qed.

(** X21. Files that all have the same header of distinct column names are
    concatenated: the table is that header followed, file after file in the
    order given, by the fields of every data line that has as many fields as
    the header, in line order and with every cell as it was in the file. *)
Theorem identical_headers_concatenate_the_files
    (fs : file_system) (delim na_value : string) (files : list string)
    (h : list string) :
  files ≠ [] → NoDup h →
  (∀ p, p ∈ files → ∃ rest, header_and_lines fs delim p = Some (h, rest)) →
  ∃ l,
    run fs delim na_value false false files
    = (l, Ok (h :: concat (kept_fields fs delim <$> files))).
Proof.
  intros Hne Hnd Hfiles.
  destruct (run_total fs delim na_value false false files) as (l & out & Hrun).
  { apply Forall_forall. intros p Hp.
    destruct (Hfiles p Hp) as [rest ->]. by eexists. }
  exists l. rewrite Hrun. rewrite (run_rows _ _ _ _ _ _ Hrun).
  assert (Hheaders : omap (λ p, fst <$> header_and_lines fs delim p) files
                     = replicate (length files) h).
  { clear Hne Hrun. induction files as [|p files IH]; [done|].
    cbn [omap list_omap]. destruct (Hfiles p) as [rest ->]; [left|].
    cbn [fmap option_fmap option_map fst length replicate]. f_equal.
    apply IH. intros q Hq. apply Hfiles. by right. }
  assert (Hcanon : canonical_header (replicate (length files) h) = h).
  { assert (Hin : h ∈ replicate (length files) h).
    { destruct files; [done|]. left. }
    assert (Hpre : ∀ h', h' ∈ replicate (length files) h → h' `prefix_of` h).
    { by intros h' [-> _]%elem_of_replicate. }
    rewrite canonical_header_eq, (prefix_headers_slots _ h) by done.
    rewrite (final_order_columns _ h 0).
    - by apply foldl_place_fresh.
    - intros j x Hj. change (0 + j) with j.
      by apply (prefix_headers_slot _ h). }
  rewrite Hheaders, Hcanon. do 4 f_equal.
  apply list_fmap_ext. intros i p Hp.
  apply list_elem_of_lookup_2 in Hp.
  unfold file_rows, kept_fields. destruct (Hfiles p Hp) as [rest ->].
  rewrite stored_rows_kept, <- !list_fmap_compose.
  apply Forall_fmap_ext, Forall_forall. intros line Hline. simpl.
  apply list_elem_of_filter in Hline as [Hkept _].
  unfold kept_line in Hkept. apply andb_true_iff in Hkept as [_ Hlen].
  apply Nat.eqb_eq in Hlen. by apply record_of_own_header.
Qed.

Lemma identical_headers_concatenate_the_files_witness :
  ∃ l, run reports TAB DEFAULT_NA_VALUE false false ["A"; "A"]
       = (l, Ok [["id"; "name"]; ["1"; "Alice"]; ["1"; "Alice"]]).
Proof.
  destruct (identical_headers_concatenate_the_files reports TAB
              DEFAULT_NA_VALUE ["A"; "A"] ["id"; "name"]) as [l Hrun].
  - discriminate.
  - apply (bool_decide_unpack _). vm_compute. exact I.
  - intros p Hp. exists ["1" +:+ TAB +:+ "Alice" +:+ NL].
    repeat (apply elem_of_cons in Hp as [ ->|Hp]);
      [reflexivity | reflexivity | by apply elem_of_nil in Hp].
  - exists l. rewrite Hrun. vm_compute. reflexivity.
Defined.

End table_more.

(** ** The printed text *)

Section main_more.
Implicit Types (s t : string) (array : list (list string)).

Lemma file_lines_nil s : Py.file_lines s = [] → s = EmptyString.
Proof.
  destruct s as [|a s]; [done|]. cbn [Py.file_lines].
  destruct (Ascii.eqb a Py.newline); [done|].
  by destruct (Py.file_lines s).
Qed.

Lemma file_lines_after_newline s t :
  Py.file_lines ((s +:+ NL) +:+ t)
  = Py.file_lines (s +:+ NL) ++ Py.file_lines t.
Proof.
  unfold NL. induction s as [|a s IH].
  - rewrite append_nil_l, append_cons, append_nil_l. cbn [Py.file_lines].
    by rewrite Ascii.eqb_refl.
  - rewrite (append_cons a s), (append_cons a). cbn [Py.file_lines].
    rewrite IH. destruct (Ascii.eqb a Py.newline); [done|].
    destruct (Py.file_lines (s +:+ String Py.newline EmptyString)) eqn:E;
      [|done].
    apply file_lines_nil in E. by destruct s.
Qed.

Lemma array_to_string_end array delim :
  array ≠ [] → ∃ s, array_to_string array delim = s +:+ NL.
Proof.
  induction array as [|row array IH]; [done|]. intros _.
  rewrite array_to_string_cons. destruct array as [|row' array].
  - exists (Py.join delim row). unfold array_to_string. simpl.
    by rewrite append_nil_r.
  - destruct IH as [s ->]; [done|].
    exists (Py.join delim row +:+ NL +:+ s). by rewrite !append_assoc.
Qed.

(** X22. When the run returns a table, the main body prints its text and
    [print] ends it with one more newline: read line by line, the output is
    the lines of the table's text followed by one blank line.  When the run
    raises, nothing is printed. *)
Theorem main_prints_the_table_and_a_blank_line
    (fs : file_system) (args : options) (files : list string)
    (l : list diag) (r : outcome string) :
  main fs args files = (l, r) →
  match r with
  | Ok text =>
      ∃ array,
        run fs (opt_delimiter args) (opt_na_value args)
          (opt_output_file_name args) (opt_transpose args) files
        = (l, Ok array)
        ∧ Py.file_lines text
          = Py.file_lines (array_to_string array (opt_output_delimiter args))
            ++ [NL]
  | Raise e =>
      run fs (opt_delimiter args) (opt_na_value args)
        (opt_output_file_name args) (opt_transpose args) files
      = (l, Raise e)
  end.
Proof.
  unfold main.
  destruct (run fs _ _ _ _ files) as [l' [array|e]] eqn:Erun.
  - rewrite bind_ok. cbn [fst snd ret]. rewrite app_nil_r.
    intros [= <- <-]. exists array. split; [done|].
    destruct array as [|row array]; [done|].
    destruct (array_to_string_end (row :: array) (opt_output_delimiter args))
      as [s ->]; [done|].
    by rewrite file_lines_after_newline.
  - intros [= <- <-]. done.
Qed.

Lemma main_prints_the_table_and_a_blank_line_witness :
  let args := {| opt_delimiter := DEFAULT_DELIMITER;
                 opt_output_file_name := false;
                 opt_na_value := DEFAULT_NA_VALUE;
                 opt_output_delimiter := ",";
                 opt_transpose := false; opt_verbose := false |} in
  ∃ l text,
    main reports args ["A"; "B"] = (l, Ok text)
    ∧ Py.file_lines text
      = ["id,name,score" +:+ NL; "1,Alice,None" +:+ NL; "None,Bob,99" +:+ NL;
         NL].
Proof.
  intros args.
  destruct (main reports args ["A"; "B"]) as [l [text|e]] eqn:Emain;
    [|vm_compute in Emain; discriminate].
  destruct (main_prints_the_table_and_a_blank_line reports args ["A"; "B"]
              l (Ok text) Emain) as (array & Hrun & Hlines).
  exists l, text. split; [done|]. rewrite Hlines.
  vm_compute in Hrun. injection Hrun as _ <-.
  vm_compute. reflexivity.
Defined.

End main_more.

(** ** The run as a whole *)

Section run_more.
Import FileHandler.
Implicit Types (self : FileHandler.t) (fs : file_system) (p delim : string)
  (files h fl : list string) (c : string).

(** What [add_file] does when the file has a header line. *)
Lemma add_file_spec fs self p hl :
  header_and_lines fs (delimiter self) p = Some hl →
  add_file fs self p
  = (diags_from p hl.1 (delimiter self) 1 hl.2,
     Ok {| delimiter := delimiter self;
           file_name_arr := file_name_arr self ++ [p];
           file_data_mapping :=
             <[p := file_data p (delimiter self) hl]> (file_data_mapping self);
           header_mapping :=
             HeaderMapper.add_header_arr (header_mapping self) hl.1 |}).
Proof.
  intros Hhl. destruct (add_file_total fs self p hl Hhl) as (l & self' & Hadd).
  pose proof (add_file_ok _ _ _ _ _ Hadd) as (hl' & Hhl' & ->).
  rewrite Hhl in Hhl'. injection Hhl' as <-.
  rewrite Hadd. f_equal.
  revert Hadd. unfold add_file.
  unfold header_and_lines in Hhl. rewrite (read_header_delimiter self).
  destruct (read_header (init (delimiter self)) (open_file fs p))
    as [l0 [[hdr f']|e]] eqn:E; [|done].
  pose proof (read_header_ok _ _ _ _ _ E) as (-> & Hd & Hname & [pre Hpre] & [h ->]).
  simpl in Hd. injection Hhl as <-. cbn [fst snd].
  assert (Hlines : Forall (λ line, line ≠ EmptyString) (pending f')).
  { pose proof (open_file_nonempty fs p) as Hall. rewrite Hpre in Hall.
    by apply Forall_app in Hall as [_ ?]. }
  destruct (read_header_cases (init (delimiter self)) (open_file fs p))
    as [(e & He & _)|(x & cols & f'' & Hread & _)]; [congruence|].
  rewrite E in Hread. injection Hread as -> _.
  rewrite bind_ok. cbn [fst snd app falsy]. rewrite bind_ret.
  rewrite init_spec by done. rewrite bind_ok. cbn [fst snd ret].
  rewrite app_nil_r, Hname, open_file_name. by intros [= <-].
Qed.

Lemma add_file_raises fs self p l e :
  add_file fs self p = (l, Raise e) →
  l = [] ∧ header_and_lines fs (delimiter self) p = None
  ∧ (e = StopIteration ∨ e = IndexError ∨ e = ValueError).
Proof.
  intros Hadd.
  destruct (header_and_lines fs (delimiter self) p) as [hl|] eqn:Ehl.
  { rewrite (add_file_spec _ _ _ _ Ehl) in Hadd. done. }
  revert Hadd. unfold add_file.
  destruct (read_header_cases self (open_file fs p))
    as [(e' & -> & He)|(x & cols & f' & Hread & _)].
  - by intros [= <- <-].
  - unfold header_and_lines in Ehl.
    rewrite <- (read_header_delimiter self), Hread in Ehl. done.
Qed.

Lemma add_files_log fs self files l self' :
  add_files self ((λ p, (fs, p)) <$> files) = (l, Ok self') →
  l = concat (file_diags fs (delimiter self) <$> files).
Proof.
  revert self l self'. induction files as [|p files IH]; intros self l self'.
  - simpl. by intros [= <- _].
  - rewrite fmap_cons. cbn [add_files].
    destruct (add_file fs self p) as [l1 [self1|e]] eqn:E1; [|done].
    pose proof (add_file_ok _ _ _ _ _ E1) as (hl & Hhl & Hself1).
    rewrite (add_file_spec _ _ _ _ Hhl) in E1. injection E1 as <- _.
    rewrite bind_ok. cbn [fst snd].
    destruct (add_files self1 _) as [l2 [self2|e]] eqn:E2; [|done].
    apply IH in E2. intros [= <- _]. rewrite fmap_cons. cbn [concat].
    unfold file_diags at 1. rewrite Hhl. destruct hl as [h rest].
    f_equal. rewrite E2. by rewrite Hself1.
Qed.

Lemma add_files_raises fs self files l e :
  add_files self ((λ p, (fs, p)) <$> files) = (l, Raise e) →
  (e = StopIteration ∨ e = IndexError ∨ e = ValueError)
  ∧ ∃ p, p ∈ files ∧ header_and_lines fs (delimiter self) p = None.
Proof.
  revert self l. induction files as [|p files IH]; intros self l; [done|].
  rewrite fmap_cons. cbn [add_files].
  destruct (add_file fs self p) as [l1 [self1|e1]] eqn:E1.
  - pose proof (add_file_ok _ _ _ _ _ E1) as (hl & _ & Hself1).
    rewrite bind_ok. cbn [fst snd].
    destruct (add_files self1 _) as [l2 [self2|e2]] eqn:E2; [done|].
    intros [= _ <-]. apply IH in E2 as (He & q & Hq & Hnone).
    split; [done|]. exists q. split; [by right|].
    by rewrite Hself1 in Hnone.
  - apply add_file_raises in E1 as (_ & Hnone & He).
    intros [= _ <-]. split; [done|]. exists p. split; [left | done].
Qed.

(** X23. The run raises exactly when one of the files has no header line that
    can be read and split; the exception is then [StopIteration],
    [IndexError] or [ValueError], never [KeyError] or [TypeError]. *)
Theorem run_raises_only_without_header
    fs (delim na_value : string) (output_file_name transpose : bool) files :
  (∀ l e,
     run fs delim na_value output_file_name transpose files = (l, Raise e) →
     e = StopIteration ∨ e = IndexError ∨ e = ValueError)
  ∧ ((∃ l e, run fs delim na_value output_file_name transpose files
             = (l, Raise e))
     ↔ ∃ p, p ∈ files ∧ header_and_lines fs delim p = None).
Proof.
  assert (Hraise : ∀ l e,
    run fs delim na_value output_file_name transpose files = (l, Raise e) →
    (e = StopIteration ∨ e = IndexError ∨ e = ValueError)
    ∧ ∃ p, p ∈ files ∧ header_and_lines fs delim p = None).
  { intros l e. unfold run.
    destruct (add_files (init delim) _) as [l1 [self|e1]] eqn:Eadd.
    - rewrite bind_ok. cbn [fst snd].
      destruct (output_after_add_files _ _ _ _ na_value output_file_name Eadd)
        as [self' Hget].
      destruct transpose.
      + unfold get_output_array_transposed. by rewrite Hget, !bind_ok.
      + by rewrite Hget, bind_ok.
    - intros [= _ <-]. by apply add_files_raises in Eadd. }
  split; [intros l e H; by apply Hraise in H as [? _]|]. split.
  - intros (l & e & H). by apply Hraise in H as [_ ?].
  - intros (p & Hp & Hnone).
    destruct (run fs delim na_value output_file_name transpose files)
      as [l [out|e]] eqn:Erun; [|by eauto].
    exfalso. revert Erun. unfold run.
    destruct (add_files (init delim) _) as [l1 [self|e1]] eqn:Eadd; [|done].
    apply add_files_ok in Eadd as (_ & _ & _ & Hall & _). simpl in Hall.
    assert (Hin : (fs, p) ∈ (λ p, (fs, p)) <$> files)
      by (apply list_elem_of_fmap; by exists p).
    apply (proj1 (Forall_forall _ _) Hall) in Hin as [hl Hhl].
    simpl in Hhl. congruence.
Qed.

Lemma run_raises_only_without_header_witness :
  ∃ l e, run reports TAB DEFAULT_NA_VALUE false false ["A"; "E"; "B"]
         = (l, Raise e).
Proof.
  apply (proj2 (run_raises_only_without_header reports TAB DEFAULT_NA_VALUE
                  false false ["A"; "E"; "B"])).
  exists "E". split; [|reflexivity].
  right. left.
Defined.

(** X24. The diagnostics of a run that returns are the column-count errors of
    the files, file after file in the order given and line after line within
    a file. *)
Theorem run_logs_in_file_and_line_order
    fs (delim na_value : string) (output_file_name transpose : bool) files
    (l : list diag) (out : list (list string)) :
  run fs delim na_value output_file_name transpose files = (l, Ok out) →
  l = concat (file_diags fs delim <$> files).
Proof.
  unfold run.
  destruct (add_files (init delim) _) as [l1 [self|e1]] eqn:Eadd; [|done].
  pose proof (add_files_log _ _ _ _ _ Eadd) as Hlog. simpl in Hlog.
  rewrite bind_ok. cbn [fst snd].
  destruct (output_after_add_files _ _ _ _ na_value output_file_name Eadd)
    as [self' Hget].
  destruct transpose.
  - unfold get_output_array_transposed. rewrite Hget, !bind_ok.
    cbn [fst snd ret]. rewrite !app_nil_r. by intros [= <- _].
  - rewrite Hget, bind_ok. cbn [fst snd ret]. rewrite !app_nil_r.
    by intros [= <- _].
Qed.

Lemma run_logs_in_file_and_line_order_witness :
  let fs := files_of [("P", "a" +:+ TAB +:+ "b" +:+ NL +:+ "1" +:+ NL);
                      ("Q", "a" +:+ NL +:+ "1" +:+ NL
                            +:+ "2" +:+ TAB +:+ "3" +:+ NL)] in
  ∃ out,
    run fs TAB DEFAULT_NA_VALUE false false ["Q"; "P"]
    = ([InconsistentColumns "Q" 3 2 1; InconsistentColumns "P" 2 1 2], Ok out).
Proof.
  intros fs.
  destruct (run fs TAB DEFAULT_NA_VALUE false false ["Q"; "P"])
    as [l [out|e]] eqn:Erun; [|vm_compute in Erun; discriminate].
  exists out. f_equal.
  rewrite (run_logs_in_file_and_line_order fs TAB DEFAULT_NA_VALUE false false
             ["Q"; "P"] l out Erun).
  vm_compute. reflexivity.
Defined.

(** *** Projection by column name *)

Lemma index_of_absent c h : c ∉ h → index_of c h = None.
Proof.
  induction h as [|y h IH]; [done|]. intros [Hne Hc]%not_elem_of_cons.
  simpl. rewrite decide_False by done. by rewrite IH.
Qed.

Lemma index_of_first c (h1 h2 : list string) :
  c ∉ h1 → index_of c (h1 ++ c :: h2) = Some (length h1).
Proof.
  induction h1 as [|y h1 IH]; simpl.
  - intros _. by rewrite decide_True.
  - intros [Hne Hc]%not_elem_of_cons.
    rewrite decide_False by done. by rewrite IH.
Qed.

Lemma zip_row_index h fl c :
  NoDup h → length fl = length h →
  zip_row h fl !! c = index_of c h ≫= (λ k, fl !! k).
Proof.
  intros Hnd Hlen. destruct (decide (c ∈ h)) as [Hin|Hout].
  - apply list_elem_of_split in Hin as (h1 & h2 & ->).
    apply NoDup_app in Hnd as (_ & Hdisj & Hnd2).
    apply NoDup_cons in Hnd2 as [Hc2 _].
    assert (Hc1 : c ∉ h1). { intros Hc. apply (Hdisj c Hc). left. }
    rewrite index_of_first by done. simpl. by apply zip_row_last.
  - rewrite index_of_absent by done. unfold zip_row.
    by rewrite foldl_insert_other.
Qed.

(** X25. Rows are projected by column name: when every file's header names
    distinct columns, the table is the canonical header followed, file after
    file, by one record per kept data line, whose cell under a canonical
    column is the line's field under the column of that name in the file's
    own header, and the null value when the file has no such column. *)
Theorem rows_are_projected_by_column_name
    fs (delim na_value : string) files (l : list diag)
    (out : list (list string)) :
  run fs delim na_value false false files = (l, Ok out) →
  (∀ p h rest,
     p ∈ files → header_and_lines fs delim p = Some (h, rest) → NoDup h) →
  let final :=
    canonical_header (omap (λ p, fst <$> header_and_lines fs delim p) files) in
  out = final :: concat (projected_fields fs delim na_value final <$> files).
Proof.
  intros Hrun Hnd final. rewrite (run_rows _ _ _ _ _ _ Hrun). fold final.
  do 2 f_equal. apply list_fmap_ext. intros i p Hp.
  apply list_elem_of_lookup_2 in Hp.
  unfold file_rows, projected_fields, kept_fields.
  destruct (header_and_lines fs delim p) as [[h rest]|] eqn:Ehl; [|done].
  specialize (Hnd p h rest Hp Ehl).
  rewrite stored_rows_kept, <- !list_fmap_compose.
  apply Forall_fmap_ext, Forall_forall. intros line Hline. simpl.
  apply list_elem_of_filter in Hline as [Hkept _].
  unfold kept_line in Hkept. apply andb_true_iff in Hkept as [_ Hlen].
  apply Nat.eqb_eq in Hlen.
  apply list_fmap_ext. intros j c _. unfold cell_of.
  by rewrite zip_row_index.
Qed.

Lemma rows_are_projected_by_column_name_witness :
  ∃ l,
    run reports TAB DEFAULT_NA_VALUE false false ["B"; "A"]
    = (l, Ok [["name"; "id"; "score"];
              ["Bob"; "None"; "99"];
              ["Alice"; "1"; "None"]]).
Proof.
  destruct (run reports TAB DEFAULT_NA_VALUE false false ["B"; "A"])
    as [l [out|e]] eqn:Erun; [|vm_compute in Erun; discriminate].
  exists l.
  rewrite (rows_are_projected_by_column_name reports TAB DEFAULT_NA_VALUE
             ["B"; "A"] l out Erun).
  - vm_compute. reflexivity.
  - intros p h rest Hp Hhl.
    repeat (apply elem_of_cons in Hp as [ ->|Hp]);
      [| |by apply elem_of_nil in Hp];
      vm_compute in Hhl; injection Hhl as <- _;
      apply (bool_decide_unpack _); vm_compute; exact I.
Defined.

End run_more.
